(** * go-audit: startup and main loop of the audit daemon

    A shallow embedding of [go-audit/audit.go] and [logger/logger.go]:
    rule installation through [auditctl], selection and construction of the
    output writer, construction of the filter set, the start-up sequence of
    [main] and its receive loop.

    Go values are modelled as follows.
    - [string] is a Rocq [string], the sequence of its bytes; where Go reads
      a string rune by rune the bytes are decoded as UTF-8.  [int] is a [Z];
      [uint16] and [os.FileMode] are [Z] with the wrap-around of the
      conversion written out.
    - a Go [error] is the text returned by its [Error()] method.
    - [interface{}] values coming out of the configuration are a tagged
      union [value]; floating-point scalars are left out of the model.
    - the operating system (processes, files, syslog, the netlink socket) is
      a record of transition functions over an abstract world [W].
    - the two package-level loggers [l] and [el] and the three variables of
      package [logger] live in the program state; [logger] holds references
      to [l] and [el], so a change to [l] is seen through [logger.Info]. *)

From Stdlib Require Import ZArith String Ascii List DecimalString Lia.
From stdpp Require Import gmap strings list.

Set Warnings "-register-all".

Open Scope string_scope.
Open Scope Z_scope.

(** ** Go library primitives used by the daemon *)

(** The two-valued return [(x, err)] of a Go library call that yields
    either a value or an error. *)
Inductive result (A : Type) :=
| Ok (a : A)
| Error (err : string).
Arguments Ok {A} a.
Arguments Error {A} err.

Module Utf8.

(** The value of a byte. *)
Definition byte (c : ascii) : Z := Z.of_nat (nat_of_ascii c).

(** [utf8.RuneError], U+FFFD. *)
Definition RuneError : Z := 65533.

Definition in_range (lo hi : Z) (c : ascii) : bool :=
  (lo <=? byte c) && (byte c <=? hi).

(** The six payload bits of a continuation byte. *)
Definition payload (c : ascii) : Z := Z.land (byte c) 63.

(** [utf8.DecodeRuneInString], which is also how [range] walks a string:
    the first rune of [s] and its width in bytes.  An encoding that is
    invalid or cut short gives [RuneError] with width 1; the second byte
    of a three- or four-byte encoding has a narrower range after the lead
    bytes E0, ED, F0 and F4. *)
Definition DecodeRune (s : string) : Z * nat :=
  match s with
  | EmptyString => (RuneError, 0%nat)
  | String b0 rest =>
      let x := byte b0 in
      if x <? 128 then (x, 1%nat)
      else if in_range 194 223 b0 then
        match rest with
        | String b1 _ =>
            if in_range 128 191 b1
            then (Z.lor (Z.shiftl (Z.land x 31) 6) (payload b1), 2%nat)
            else (RuneError, 1%nat)
        | _ => (RuneError, 1%nat)
        end
      else if in_range 224 239 b0 then
        match rest with
        | String b1 (String b2 _) =>
            if in_range (if x =? 224 then 160 else 128)
                        (if x =? 237 then 159 else 191) b1
               && in_range 128 191 b2
            then (Z.lor (Z.lor (Z.shiftl (Z.land x 15) 12) (Z.shiftl (payload b1) 6))
                        (payload b2), 3%nat)
            else (RuneError, 1%nat)
        | _ => (RuneError, 1%nat)
        end
      else if in_range 240 244 b0 then
        match rest with
        | String b1 (String b2 (String b3 _)) =>
            if in_range (if x =? 240 then 144 else 128)
                        (if x =? 244 then 143 else 191) b1
               && in_range 128 191 b2 && in_range 128 191 b3
            then (Z.lor (Z.lor (Z.lor (Z.shiftl (Z.land x 7) 18)
                                      (Z.shiftl (payload b1) 12))
                               (Z.shiftl (payload b2) 6))
                        (payload b3), 4%nat)
            else (RuneError, 1%nat)
        | _ => (RuneError, 1%nat)
        end
      else (RuneError, 1%nat)
  end.

End Utf8.

Module Unicode.

(** [unicode.IsSpace]: in Latin-1 the characters tab, line feed, vertical
    tab, form feed, carriage return, space, U+0085 and U+00A0; beyond it
    the characters with the property White_Space. *)
Definition IsSpace (r : Z) : bool :=
  if r <=? 255 then
    ((9 <=? r) && (r <=? 13)) || (r =? 32) || (r =? 133) || (r =? 160)
  else
    (r =? 5760) || ((8192 <=? r) && (r <=? 8202)) || (r =? 8232) || (r =? 8233)
    || (r =? 8239) || (r =? 8287) || (r =? 12288).

End Unicode.

Module Strings.

(** The white space of ASCII: tab, line feed, vertical tab, form feed,
    carriage return and space. *)
Definition is_space (c : ascii) : bool :=
  let n := nat_of_ascii c in
  ((9 <=? n)%nat && (n <=? 13)%nat) || (n =? 32)%nat.

(** The field read so far, most recent byte first, as the fields it
    contributes. *)
Definition field (cur : list ascii) : list string :=
  match cur with
  | [] => []
  | _ => [string_of_list_ascii (rev cur)]
  end.

(** [fields_from cur skip space s]: [cur] is the field being read, most
    recent byte first; [skip] bytes of [s] still belong to the rune that
    was decoded last, which was white space or not as [space] says. *)
Fixpoint fields_from (cur : list ascii) (skip : nat) (space : bool) (s : string)
    : list string :=
  match s with
  | EmptyString => field cur
  | String c s' =>
      match skip with
      | S k =>
          if space then fields_from cur k space s'
          else fields_from (c :: cur) k space s'
      | O =>
          let '(r, width) := Utf8.DecodeRune s in
          if Unicode.IsSpace r
          then (field cur ++ fields_from [] (Nat.pred width) true s')%list
          else fields_from (c :: cur) (Nat.pred width) false s'
      end
  end.

(** [strings.Fields]: the maximal runs of runes that are not white space. *)
Definition Fields (s : string) : list string := fields_from [] 0 false s.

Definition dquote : string := String (ascii_of_nat 34) EmptyString.

(** A line feed, the escape backslash-n of a Go string literal. *)
Definition line_feed : string := String (ascii_of_nat 10) EmptyString.

(** [strconv.Quote] for text without characters that need escaping. *)
Definition Quote (s : string) : string := dquote +:+ s +:+ dquote.

End Strings.

Module Strconv.

(** Value of a character as a digit (letters stand for 10..35). *)
Definition digit_val (c : ascii) : option Z :=
  let n := Z.of_nat (nat_of_ascii c) in
  if (48 <=? n) && (n <=? 57) then Some (n - 48)
  else if (97 <=? n) && (n <=? 122) then Some (n - 97 + 10)
  else if (65 <=? n) && (n <=? 90) then Some (n - 65 + 10)
  else None.

Inductive NumError := ErrSyntax | ErrRange.

Definition num_error_text (e : NumError) : string :=
  match e with
  | ErrSyntax => "invalid syntax"
  | ErrRange => "value out of range"
  end.

(** The text of a [*strconv.NumError]. *)
Definition NumError_Error (fn num : string) (e : NumError) : string :=
  "strconv." +:+ fn +:+ ": parsing " +:+ Strings.Quote num +:+ ": "
    +:+ num_error_text e.

(** The loop of [ParseUint] over the digits of [s] in [base], from the
    value [acc] read so far: a character that is not a digit of the base
    is a syntax error, a value above [max] a range error, whichever comes
    first; with [base0] an underscore is passed over. *)
Fixpoint digits (base max : Z) (base0 : bool) (acc : Z) (s : string) : Z + NumError :=
  match s with
  | EmptyString => inl acc
  | String c s' =>
      if (c =? "_")%char && base0 then digits base max base0 acc s'
      else
        match digit_val c with
        | Some d =>
            if d <? base then
              if max <? acc * base + d then inr ErrRange
              else digits base max base0 (acc * base + d) s'
            else inr ErrSyntax
        | None => inr ErrSyntax
        end
  end.

Definition split_sign (s : string) : bool * string :=
  match s with
  | String "+" s' => (false, s')
  | String "-" s' => (true, s')
  | _ => (false, s)
  end.

(** The base letter of a prefix [0b], [0o] or [0x], in either case. *)
Definition prefix_base (c : ascii) : option Z :=
  if (c =? "b")%char || (c =? "B")%char then Some 2
  else if (c =? "o")%char || (c =? "O")%char then Some 8
  else if (c =? "x")%char || (c =? "X")%char then Some 16
  else None.

(** The base announced by the prefix of a literal, for base argument 0,
    and the digits after it: a prefix [0b], [0o] or [0x] counts when
    something follows it, any other leading [0] means octal, and without
    a leading [0] the literal is decimal. *)
Definition split_base (s : string) : Z * string :=
  match s with
  | String "0" rest =>
      match rest with
      | String c (String c' s') =>
          match prefix_base c with
          | Some b => (b, String c' s')
          | None => (8, rest)
          end
      | _ => (8, rest)
      end
  | _ => (10, s)
  end.

(** What [underscoreOK] saw last: nothing yet, a digit (or a base
    prefix), an underscore, or something else. *)
Inductive Saw := SawStart | SawDigit | SawUnderscore | SawOther.

Definition is_underscore_digit (hex : bool) (c : ascii) : bool :=
  let n := Z.of_nat (nat_of_ascii c) in
  ((48 <=? n) && (n <=? 57))
  || (hex && (((97 <=? n) && (n <=? 102)) || ((65 <=? n) && (n <=? 70)))).

Fixpoint underscore_scan (hex : bool) (saw : Saw) (s : string) : bool :=
  match s with
  | EmptyString => match saw with SawUnderscore => false | _ => true end
  | String c s' =>
      if is_underscore_digit hex c then underscore_scan hex SawDigit s'
      else if (c =? "_")%char then
        match saw with
        | SawDigit => underscore_scan hex SawUnderscore s'
        | _ => false
        end
      else
        match saw with
        | SawUnderscore => false
        | _ => underscore_scan hex SawOther s'
        end
  end.

(** [underscoreOK]: underscores only separate digits, the base prefix
    counting as a digit. *)
Definition underscoreOK (s : string) : bool :=
  let body := snd (split_sign s) in
  match body with
  | String "0" (String c s') =>
      match prefix_base c with
      | Some b => underscore_scan (b =? 16) SawDigit s'
      | None => underscore_scan false SawStart body
      end
  | _ => underscore_scan false SawStart body
  end.

Definition has_underscore (s : string) : bool :=
  existsb (fun c => (c =? "_")%char) (list_ascii_of_string s).

(** [strconv.ParseUint(s, base, bitSize)] for a base of 0 or from 2 to 36,
    up to the text of the error; bit size 0 stands for 64. *)
Definition parse_uint (s : string) (base bitSize : Z) : Z + NumError :=
  match s with
  | EmptyString => inr ErrSyntax
  | _ =>
      let base0 := base =? 0 in
      let '(b, ds) := if base0 then split_base s else (base, s) in
      let bits := if bitSize =? 0 then 64 else bitSize in
      match digits b (2 ^ bits - 1) base0 0 ds with
      | inr e => inr e
      | inl n =>
          if base0 && has_underscore ds && negb (underscoreOK s)
          then inr ErrSyntax else inl n
      end
  end.

Definition signed_in_range (neg : bool) (n bitSize : Z) : bool :=
  if neg then n <=? 2 ^ (bitSize - 1) else n <? 2 ^ (bitSize - 1).

(** [strconv.ParseInt(s, base, bitSize)], up to the text of the error. *)
Definition parse_int (s : string) (base bitSize : Z) : Z + NumError :=
  match s with
  | EmptyString => inr ErrSyntax
  | _ =>
      let '(neg, body) := split_sign s in
      let bits := if bitSize =? 0 then 64 else bitSize in
      match parse_uint body base bitSize with
      | inr ErrSyntax => inr ErrSyntax
      | inr ErrRange => inr ErrRange
      | inl n =>
          if signed_in_range neg n bits then inl (if neg then - n else n)
          else inr ErrRange
      end
  end.

Definition with_error_text (fn s : string) (r : Z + NumError) : result Z :=
  match r with
  | inl n => Ok n
  | inr e => Error (NumError_Error fn s e)
  end.

(** [strconv.ParseUint(s, 10, bitSize)]. *)
Definition ParseUint10 (s : string) (bitSize : Z) : result Z :=
  with_error_text "ParseUint" s (parse_uint s 10 bitSize).

(** [strconv.ParseInt(s, 10, bitSize)]. *)
Definition ParseInt10 (s : string) (bitSize : Z) : result Z :=
  with_error_text "ParseInt" s (parse_int s 10 bitSize).

(** [strconv.ParseInt(s, 0, 0)] on a 64-bit platform. *)
Definition ParseInt0 (s : string) : result Z :=
  with_error_text "ParseInt" s (parse_int s 0 0).

(** [strconv.Itoa]. *)
Definition Itoa (n : Z) : string := NilZero.string_of_int (Z.to_int n).

(** [strconv.ParseBool]. *)
Definition ParseBool (s : string) : option bool :=
    if existsb (String.eqb s) ["1"; "t"; "T"; "TRUE"; "true"; "True"] then Some true
    else if existsb (String.eqb s) ["0"; "f"; "F"; "FALSE"; "false"; "False"] then Some false
    else None.

End Strconv.

(** Go's narrowing conversions keep the low-order bits. *)
Definition uint16 (n : Z) : Z := n mod 2 ^ 16.
Definition uint32 (n : Z) : Z := n mod 2 ^ 32.

(** ** Configuration values *)

(** The dynamic type of a value stored in the configuration: what a YAML
    document decodes to. *)
Inductive value :=
| VNil
| VBool (b : bool)
| VInt (n : Z)
| VStr (s : string)
| VList (l : list value)
| VMap (m : list (value * value)).

(** A [map[interface{}]interface{}] is kept as the list of its entries in
    the order in which [range] visits them; Go does not fix that order, so
    every statement about a map is made for every order. *)
Definition entries := list (value * value).

Module Cast.

  (** The conversions of [spf13/cast] behind viper's typed getters; each
      returns the zero value of the target type when the conversion fails. *)

Definition ToBool (v : value) : bool :=
    match v with
    | VBool b => b
    | VInt n => negb (n =? 0)
    | VStr s => default false (Strconv.ParseBool s)
    | _ => false
    end.

Definition ToInt (v : value) : Z :=
    match v with
    | VInt n => n
    | VStr s => match Strconv.ParseInt0 s with Ok n => n | Error _ => 0 end
    | VBool b => if b then 1 else 0
    | _ => 0
    end.

Definition ToStringE (v : value) : option string :=
    match v with
    | VStr s => Some s
    | VBool b => Some (if b then "true" else "false")
    | VInt n => Some (Strconv.Itoa n)
    | VNil => Some ""
    | _ => None
    end.

Definition ToString (v : value) : string := default "" (ToStringE v).

Definition ToStringSlice (v : value) : list string :=
    match v with
    | VNil => []
    | VList l => map ToString l
    | VStr s => Strings.Fields s
    | _ => match ToStringE v with Some s => [s] | None => [] end
    end.

End Cast.

(** A [*viper.Viper]: the path of the configuration file, the registered
    defaults and the settings read from the file.  Keys are the dotted
    paths the daemon asks for. *)
Record Viper := {
  configFile : string;
  defaults : gmap string value;
  settings : gmap string value
}.

Module viper.

Definition New : Viper :=
    {| configFile := ""; defaults := ∅; settings := ∅ |}.

Definition SetConfigFile (f : string) (c : Viper) : Viper :=
    {| configFile := f; defaults := defaults c; settings := settings c |}.

Definition SetDefault (k : string) (v : value) (c : Viper) : Viper :=
    {| configFile := configFile c; defaults := <[k := v]> (defaults c);
       settings := settings c |}.

Definition with_settings (m : gmap string value) (c : Viper) : Viper :=
    {| configFile := configFile c; defaults := defaults c; settings := m |}.

  (** A key set in the file wins over its default; [VNil] when neither
      has it. *)
Definition Get (c : Viper) (k : string) : value :=
    match settings c !! k with
    | Some v => v
    | None => default VNil (defaults c !! k)
    end.

Definition GetBool (c : Viper) (k : string) : bool := Cast.ToBool (Get c k).
Definition GetInt (c : Viper) (k : string) : Z := Cast.ToInt (Get c k).
Definition GetString (c : Viper) (k : string) : string := Cast.ToString (Get c k).
Definition GetStringSlice (c : Viper) (k : string) : list string :=
    Cast.ToStringSlice (Get c k).

End viper.

(** ** Program state *)

(** The two standard streams a [log.Logger] of the daemon can write to. *)
Inductive Stream := Stdout | Stderr.

(** A [log.Logger]: where it writes and its format flags. *)
Record Logger := { out : Stream; flags : Z }.

(** The addresses of the package-level loggers [l] and [el]. *)
Inductive LoggerRef := ref_l | ref_el.

Inductive Severity :=
| SevEmerg | SevAlert | SevCrit | SevErr | SevWarning | SevNotice | SevInfo | SevDebug.

(** Handles handed out by the operating system. *)
Definition SyslogWriter := Z.
Definition File := Z.
Record User := { Uid : string }.
Record Group := { Gid : string }.

(** What the process has emitted.  [Printf] is called by [logger] with the
    argument slice as its single operand; the slice is kept as the texts of
    its elements. *)
Inductive Emitted :=
| Printed (to : Stream) (format : string) (a : list string)
| Syslogged (w : SyslogWriter) (sev : Severity) (format : string) (a : list string)
| Usage.

(** One call of an [executor] and the error it returned. *)
Record Invocation := {
  inv_name : string;
  inv_args : list string;
  inv_err : option string
}.

(** The state of the process: the world outside the modelled sources (the
    operating system and the state held by packages [client], [marshaller]
    and [writer]), the loggers [l] and [el] of package [main], the three
    variables of package [logger], and two histories: what has been
    emitted, and which commands have been handed to an executor. *)
Record State (W : Type) := {
  world : W;
  l : Logger;
  el : Logger;
  stdOut : option LoggerRef;
  stdErr : option LoggerRef;
  sysLog : option SyslogWriter;
  emitted : list Emitted;
  invoked : list Invocation
}.
Arguments world {W} _.
Arguments l {W} _.
Arguments el {W} _.
Arguments stdOut {W} _.
Arguments stdErr {W} _.
Arguments sysLog {W} _.
Arguments emitted {W} _.
Arguments invoked {W} _.

(** At program start [l] writes to standard output and [el] to standard
    error, both with flags 0; the variables of [logger] are nil. *)
Definition initial {W} (w : W) : State W :=
  {| world := w;
     l := {| out := Stdout; flags := 0 |};
     el := {| out := Stderr; flags := 0 |};
     stdOut := None; stdErr := None; sysLog := None;
     emitted := []; invoked := [] |}.

Section Updates.
Context {W : Type}.

Definition with_world (w : W) (st : State W) : State W :=
    {| world := w; l := l st; el := el st; stdOut := stdOut st;
       stdErr := stdErr st; sysLog := sysLog st; emitted := emitted st;
       invoked := invoked st |}.

Definition with_l (x : Logger) (st : State W) : State W :=
    {| world := world st; l := x; el := el st; stdOut := stdOut st;
       stdErr := stdErr st; sysLog := sysLog st; emitted := emitted st;
       invoked := invoked st |}.

Definition with_el (x : Logger) (st : State W) : State W :=
    {| world := world st; l := l st; el := x; stdOut := stdOut st;
       stdErr := stdErr st; sysLog := sysLog st; emitted := emitted st;
       invoked := invoked st |}.

Definition with_logger_vars (so se : option LoggerRef) (sl : option SyslogWriter)
      (st : State W) : State W :=
    {| world := world st; l := l st; el := el st; stdOut := so;
       stdErr := se; sysLog := sl; emitted := emitted st;
       invoked := invoked st |}.

Definition emit (e : Emitted) (st : State W) : State W :=
    {| world := world st; l := l st; el := el st; stdOut := stdOut st;
       stdErr := stdErr st; sysLog := sysLog st; emitted := emitted st ++ [e];
       invoked := invoked st |}.

Definition record_invocation (i : Invocation) (st : State W) : State W :=
    {| world := world st; l := l st; el := el st; stdOut := stdOut st;
       stdErr := stdErr st; sysLog := sysLog st; emitted := emitted st;
       invoked := invoked st ++ [i] |}.

  (** The logger a reference points to. *)
Definition deref (r : LoggerRef) (st : State W) : Logger :=
    match r with ref_l => l st | ref_el => el st end.

  (** The part of the state that makes up the loggers. *)
Definition loggers (st : State W) :=
    (l st, el st, stdOut st, stdErr st, sysLog st).

End Updates.

(** ** A state monad for the process *)

Definition M (W A : Type) : Type := State W -> A * State W.

Definition ret {W A} (a : A) : M W A := fun st => (a, st).

Definition bind {W A B} (m : M W A) (k : A -> M W B) : M W B :=
  fun st => let '(a, st') := m st in k a st'.

Declare Scope go_scope.
Delimit Scope go_scope with go.
Notation "x <- c1 ;; c2" := (bind c1 (fun x => c2))
  (at level 100, c1 at next level, right associativity) : go_scope.
Notation "c1 ;; c2" := (bind c1 (fun _ => c2))
  (at level 100, right associativity) : go_scope.
Open Scope go_scope.

(** A call into the world: run the transition on the world component. *)
Definition sys {W A} (f : W -> A * W) : M W A :=
  fun st => let '(a, w') := f (world st) in (a, with_world w' st).

Definition modify {W} (f : State W -> State W) : M W unit :=
  fun st => (tt, f st).

(** ** Package logger *)

Module logger.
Section Logger.
Context {W : Type}.

Definition AuditLoggerNew (so se : option LoggerRef) (sl : option SyslogWriter)
      : M W unit :=
    modify (with_logger_vars so se sl).

  (** [Printf] of the [log.Logger] behind [r]. *)
Definition Printf (r : LoggerRef) (format : string) (a : list string) : M W unit :=
    fun st => (tt, emit (Printed (out (deref r st)) format a) st).

  (** The common shape of the eight functions: syslog when [sysLog] is set,
      otherwise the logger found in [fallback] when that is set, otherwise
      nothing.  The error of the syslog write is the function's result; no
      caller in [main] looks at it and it is not modelled. *)
Definition log_at (sev : Severity) (fallback : State W -> option LoggerRef)
      (format : string) (a : list string) : M W unit :=
    fun st =>
      match sysLog st with
      | Some w => (tt, emit (Syslogged w sev format a) st)
      | None =>
          match fallback st with
          | Some r => Printf r format a st
          | None => (tt, st)
          end
      end.

Definition Emerg := log_at SevEmerg stdErr.
Definition Alert := log_at SevAlert stdErr.
Definition Crit := log_at SevCrit stdErr.
Definition Err := log_at SevErr stdErr.
Definition Warning := log_at SevWarning stdErr.
Definition Notice := log_at SevNotice stdOut.
Definition Info := log_at SevInfo stdOut.
Definition Debug := log_at SevDebug stdOut.

End Logger.
End logger.

(** ** The interface to the world *)

(** An [executor]: runs a command with arguments and returns its error. *)
Definition executor (W : Type) := string -> list string -> W -> option string * W.

(** The system and library calls made by [audit.go].  Each is a transition
    on the world; [regexp_Compile] is pure and returns the error of a
    pattern that does not compile. *)
Record OS (W : Type) := {
  exec_Run : executor W;
  ReadInConfig : string -> W -> result (gmap string value) * W;
  syslog_Dial : string -> string -> Z -> string -> W -> result SyslogWriter * W;
  os_OpenFile : string -> Z -> W -> result File * W;
  File_Chmod : File -> Z -> W -> option string * W;
  File_Chown : File -> Z -> Z -> W -> option string * W;
  user_Lookup : string -> W -> result User * W;
  user_LookupGroup : string -> W -> result Group * W;
  regexp_Compile : string -> option string
}.
Arguments exec_Run {W} _.
Arguments ReadInConfig {W} _.
Arguments syslog_Dial {W} _.
Arguments os_OpenFile {W} _.
Arguments File_Chmod {W} _.
Arguments File_Chown {W} _.
Arguments user_Lookup {W} _.
Arguments user_LookupGroup {W} _.
Arguments regexp_Compile {W} _.

(** ** Package writer *)

(** What an [AuditWriter] writes to. *)
Inductive Sink :=
| SyslogSink (w : SyslogWriter)
| FileSink (f : File)
| StdoutSink.

Record AuditWriter := { sink : Sink; attempts : Z }.

(** Modelled from the spec: package [writer] is not among the sources.  Its
    constructor wraps a sink with the configured number of attempts (spec
    4.E) and returns a pointer to the new writer, which is never nil.  A
    [*AuditWriter] is an [option AuditWriter], [None] being nil. *)
Definition NewAuditWriter (s : Sink) (attempts : Z) : option AuditWriter :=
  Some {| sink := s; attempts := attempts |}.

(** ** Package marshaller: the filter type *)

(** A compiled [*regexp.Regexp], kept as the expression it was compiled
    from, which is what its [String] method returns. *)
Record Regexp := { expr : string }.

(** [AuditFilter] is declared in package [marshaller]; the fields are those
    [createFilters] assigns.  [Regex] is a pointer, [None] being nil. *)
Record AuditFilter := {
  MessageType : Z;
  Syscall : string;
  Regex : option Regexp
}.

(** How a call ends: it returns, or it panics with a value. *)
Inductive outcome (A : Type) :=
| Returned (a : A)
| Panicked (v : string).
Arguments Returned {A} a.
Arguments Panicked {A} v.

(** The text of the run-time panic raised by a method that reads a field
    through a nil receiver. *)
Definition nil_dereference : string :=
  "runtime error: invalid memory address or nil pointer dereference".

Definition join (sep : string) (xs : list string) : string :=
  match xs with
  | [] => ""
  | x :: rest => fold_left (fun acc y => acc +:+ sep +:+ y) rest x
  end.

(** The text [%v] prints for a configuration value. *)
Fixpoint fmt_v (v : value) : string :=
  match v with
  | VNil => "<nil>"
  | VBool b => if b then "true" else "false"
  | VInt n => Strconv.Itoa n
  | VStr s => s
  | VList xs => "[" +:+ join " " (map fmt_v xs) +:+ "]"
  | VMap m =>
      "map[" +:+ join " " (map (fun kv => match kv with
                                          | (k, x) => fmt_v k +:+ ":" +:+ fmt_v x
                                          end) m) +:+ "]"
  end.

(** [k == name] for an interface value [k] and a string constant. *)
Definition key_is (k : value) (name : string) : bool :=
  match k with
  | VStr s => String.eqb s name
  | _ => false
  end.

(** ** go-audit/audit.go *)

(** [int(syslog.LOG_LOCAL0|syslog.LOG_WARNING)]: facility 16 shifted left by
    three, severity 4. *)
Definition LOG_LOCAL0_WARNING : Z := Z.lor (Z.shiftl 16 3) 4.

Section Audit.
Context {W : Type} (os : OS W).

  (** [lExec]: run the command as a child process. *)
Definition lExec : executor W := exec_Run os.

  (** A call [e(name, args...)] of an executor, entered in the history. *)
Definition call (e : executor W) (name : string) (args : list string)
      : M W (option string) :=
    fun st =>
      let '(err, w') := e name args (world st) in
      (err, record_invocation
              {| inv_name := name; inv_args := args; inv_err := err |}
              (with_world w' st)).

Definition SetFlags (r : LoggerRef) (f : Z) : M W unit :=
    modify (fun st =>
      match r with
      | ref_l => with_l {| out := out (l st); flags := f |} st
      | ref_el => with_el {| out := out (el st); flags := f |} st
      end).

Definition SetOutput (r : LoggerRef) (s : Stream) : M W unit :=
    modify (fun st =>
      match r with
      | ref_l => with_l {| out := s; flags := flags (l st) |} st
      | ref_el => with_el {| out := s; flags := flags (el st) |} st
      end).

Definition config_defaults (configFile : string) : Viper :=
    viper.SetDefault "log.flags" (VInt 0)
    (viper.SetDefault "output.syslog.attempts" (VStr "3")
    (viper.SetDefault "output.syslog.tag" (VStr "go-audit")
    (viper.SetDefault "output.syslog.priority" (VInt LOG_LOCAL0_WARNING)
    (viper.SetDefault "output.syslog.enabled" (VBool false)
    (viper.SetDefault "message_tracking.max_out_of_order" (VInt 500)
    (viper.SetDefault "message_tracking.log_out_of_order" (VBool false)
    (viper.SetDefault "message_tracking.enabled" (VBool true)
    (viper.SetConfigFile configFile viper.New)))))))).

  (** [loadConfig] returns either [(config, nil)] or [(nil, err)]. *)
Definition loadConfig (configFile : string) : M W (result Viper) :=
    let config := config_defaults configFile in
    r <- sys (ReadInConfig os configFile) ;;
    match r with
    | Error err => ret (Error err)
    | Ok read =>
        let config := viper.with_settings read config in
        SetFlags ref_l (viper.GetInt config "log.flags") ;;
        SetFlags ref_el (viper.GetInt config "log.flags") ;;
        ret (Ok config)
    end.

  (** The body of [for i, v := range rules] from index [i] on. *)
Fixpoint addRules (e : executor W) (i : Z) (rules : list string)
      : M W (option string) :=
    match rules with
    | [] => ret None
    | v :: rest =>
        if String.eqb v "" then addRules e (i + 1) rest
        else
          err <- call e "auditctl" (Strings.Fields v) ;;
          match err with
          | Some err =>
              ret (Some ("Failed to add rule #" +:+ Strconv.Itoa (i + 1)
                         +:+ ". Error: " +:+ err))
          | None =>
              logger.Info "Added audit rule #%d" [Strconv.Itoa (i + 1)] ;;
              addRules e (i + 1) rest
          end
    end.

Definition setRules (config : Viper) (e : executor W) : M W (option string) :=
    err <- call e "auditctl" ["-D"] ;;
    match err with
    | Some err =>
        ret (Some ("Failed to flush existing audit rules. Error: " +:+ err))
    | None =>
        logger.Info "Flushed existing audit rules" [] ;;
        let rules := viper.GetStringSlice config "rules" in
        if negb (Nat.eqb (length rules) 0) then addRules e 0 rules
        else ret (Some "No audit rules found.")
    end.

  (** The three constructors return the pair [(writer, err)]. *)
Definition createSyslogOutput (config : Viper)
      : M W (option AuditWriter * option string) :=
    let attempts := viper.GetInt config "output.syslog.attempts" in
    if attempts <? 1 then
      ret (None, Some ("Output attempts for syslog must be at least 1, "
                       +:+ Strconv.Itoa attempts +:+ " provided"))
    else
      r <- sys (syslog_Dial os
                  (viper.GetString config "output.syslog.network")
                  (viper.GetString config "output.syslog.address")
                  (viper.GetInt config "output.syslog.priority")
                  (viper.GetString config "output.syslog.tag")) ;;
      match r with
      | Error err => ret (None, Some ("Failed to open syslog writer. Error: " +:+ err))
      | Ok syslogWriter => ret (NewAuditWriter (SyslogSink syslogWriter) attempts, None)
      end.

Definition createFileOutput (config : Viper)
      : M W (option AuditWriter * option string) :=
    let attempts := viper.GetInt config "output.file.attempts" in
    if attempts <? 1 then
      ret (None, Some ("Output attempts for file must be at least 1, "
                       +:+ Strconv.Itoa attempts +:+ " provided"))
    else
    let mode := uint32 (viper.GetInt config "output.file.mode") in
    if mode <? 1 then
      ret (None, Some "Output file mode should be greater than 0000")
    else
    r <- sys (os_OpenFile os (viper.GetString config "output.file.path") mode) ;;
    match r with
    | Error err => ret (None, Some ("Failed to open output file. Error: " +:+ err))
    | Ok f =>
    err <- sys (File_Chmod os f mode) ;;
    match err with
    | Some err => ret (None, Some ("Failed to set file permissions. Error: " +:+ err))
    | None =>
    let uname := viper.GetString config "output.file.user" in
    r <- sys (user_Lookup os uname) ;;
    match r with
    | Error err =>
        ret (None, Some ("Could not find uid for user " +:+ uname
                         +:+ ". Error: " +:+ err))
    | Ok u =>
    let gname := viper.GetString config "output.file.group" in
    r <- sys (user_LookupGroup os gname) ;;
    match r with
    | Error err =>
        ret (None, Some ("Could not find gid for group " +:+ gname
                         +:+ ". Error: " +:+ err))
    | Ok g =>
    match Strconv.ParseInt10 (Uid u) 32 with
    | Error err => ret (None, Some ("Found uid could not be parsed. Error: " +:+ err))
    | Ok uid =>
    match Strconv.ParseInt10 (Gid g) 32 with
    | Error err => ret (None, Some ("Found gid could not be parsed. Error: " +:+ err))
    | Ok gid =>
    err <- sys (File_Chown os f uid gid) ;;
    match err with
    | Some err => ret (None, Some ("Could not chown output file. Error: " +:+ err))
    | None => ret (NewAuditWriter (FileSink f) attempts, None)
    end end end end end end end.

Definition createStdOutOutput (config : Viper)
      : M W (option AuditWriter * option string) :=
    let attempts := viper.GetInt config "output.stdout.attempts" in
    if attempts <? 1 then
      ret (None, Some ("Output attempts for stdout must be at least 1, "
                       +:+ Strconv.Itoa attempts +:+ " provided"))
    else
      SetOutput ref_l Stderr ;;
      ret (NewAuditWriter StdoutSink attempts, None).

  (** One of the three [if config.GetBool(...) == true] blocks: [writer] and
      [i] are the variables of [createOutput]; the result is their new
      value, or the error the function returns with. *)
Definition output_block (enabled : bool)
      (create : M W (option AuditWriter * option string))
      (writer : option AuditWriter) (i : Z)
      : M W (result (option AuditWriter * Z)) :=
    if enabled then
      p <- create ;;
      match snd p with
      | Some err => ret (Error err)
      | None => ret (Ok (fst p, i + 1))
      end
    else ret (Ok (writer, i)).

Definition createOutput (config : Viper)
      : M W (option AuditWriter * option string) :=
    r <- output_block (viper.GetBool config "output.syslog.enabled")
           (createSyslogOutput config) None 0 ;;
    match r with
    | Error err => ret (None, Some err)
    | Ok (writer, i) =>
    r <- output_block (viper.GetBool config "output.file.enabled")
           (createFileOutput config) writer i ;;
    match r with
    | Error err => ret (None, Some err)
    | Ok (writer, i) =>
    r <- output_block (viper.GetBool config "output.stdout.enabled")
           (createStdOutOutput config) writer i ;;
    match r with
    | Error err => ret (None, Some err)
    | Ok (writer, i) =>
        if 1 <? i then ret (None, Some "Only one output can be enabled at a time")
        else
          match writer with
          | None => ret (None, Some "No outputs were configured")
          | Some w => ret (Some w, None)
          end
    end end end.

  (** One pass through the body of [for k, v := range f2]: the [switch] on
      the key, for filter number [i + 1]. *)
Definition setField (i : Z) (k v : value) (af : AuditFilter)
      : M W (outcome AuditFilter) :=
    if key_is k "message_type" then
      match v with
      | VStr ev =>
          match Strconv.ParseUint10 ev 64 with
          | Error err =>
              logger.Crit "`message_type` in filter %d could not be parsed %v (%v) "
                [Strconv.Itoa (i + 1); fmt_v v; err] ;;
              ret (Panicked err)
          | Ok fv =>
              ret (Returned {| MessageType := uint16 fv; Syscall := Syscall af;
                               Regex := Regex af |})
          end
      | VInt ev =>
          ret (Returned {| MessageType := uint16 ev; Syscall := Syscall af;
                           Regex := Regex af |})
      | _ =>
          logger.Crit "`message_type` in filter %d could not be parsed %v"
            [Strconv.Itoa (i + 1); fmt_v v] ;;
          ret (Panicked "`message_type` in filter could not be parsed")
      end
    else if key_is k "regex" then
      match v with
      | VStr re =>
          match regexp_Compile os re with
          | Some err =>
              logger.Crit "`regex` in filter %d could not be parsed %v"
                [Strconv.Itoa (i + 1); fmt_v v] ;;
              ret (Panicked err)
          | None =>
              ret (Returned {| MessageType := MessageType af; Syscall := Syscall af;
                               Regex := Some {| expr := re |} |})
          end
      | _ =>
          logger.Crit "`regex` in filter %d could not be parsed %v"
            [Strconv.Itoa (i + 1); fmt_v v] ;;
          ret (Panicked "`regex` in filter could not be parsed")
      end
    else if key_is k "syscall" then
      match v with
      | VStr ev =>
          ret (Returned {| MessageType := MessageType af; Syscall := ev;
                           Regex := Regex af |})
      | VInt ev =>
          ret (Returned {| MessageType := MessageType af; Syscall := Strconv.Itoa ev;
                           Regex := Regex af |})
      | _ =>
          logger.Crit "`syscall` in filter %d could not be parsed %v"
            [Strconv.Itoa (i + 1); fmt_v v] ;;
          ret (Panicked "`syscall` in filter could not be parsed")
      end
    else ret (Returned af).

  (** [for k, v := range f2], over the entries in the order of the visit. *)
Fixpoint rangeFields (i : Z) (f2 : entries) (af : AuditFilter)
      : M W (outcome AuditFilter) :=
    match f2 with
    | [] => ret (Returned af)
    | (k, v) :: rest =>
        r <- setField i k v af ;;
        match r with
        | Panicked p => ret (Panicked p)
        | Returned af' => rangeFields i rest af'
        end
    end.

  (** [for i, f := range ft] from index [i] on.  The arguments of the final
      [logger.Info] are evaluated before the call, [af.Regex.String()] among
      them: with a nil [af.Regex] the method reads through a nil receiver. *)
Fixpoint rangeFilters (i : Z) (ft : list value) (filters : list AuditFilter)
      : M W (outcome (list AuditFilter)) :=
    match ft with
    | [] => ret (Returned filters)
    | f :: rest =>
        match f with
        | VMap f2 =>
            r <- rangeFields i f2 {| MessageType := 0; Syscall := ""; Regex := None |} ;;
            match r with
            | Panicked p => ret (Panicked p)
            | Returned af =>
                let filters := (filters ++ [af])%list in
                match Regex af with
                | None => ret (Panicked nil_dereference)
                | Some re =>
                    logger.Info
                      ("Ignoring  syscall `%v` containing message type `%v` matching string `%s`"
                         +:+ Strings.line_feed)
                      [Syscall af; Strconv.Itoa (MessageType af); expr re] ;;
                    rangeFilters (i + 1) rest filters
                end
            end
        | _ =>
            logger.Crit "Could not parse filter %d, %v" [Strconv.Itoa (i + 1); fmt_v f] ;;
            ret (Panicked "Could not parse filter")
        end
    end.

Definition createFilters (config : Viper) : M W (outcome (list AuditFilter)) :=
    match viper.Get config "filters" with
    | VList ft => rangeFilters 0 ft []
    | _ => ret (Returned [])
    end.

End Audit.

(** ** The packages behind the main loop *)

(** Packages [client] and [marshaller] are not among the sources; [main]
    only calls their constructors, [Receive] and [Consume].  They are taken
    as transitions on the world, which holds their state.  A call into them
    may end the process instead of returning: the constructors then yield
    [None] and [Consume] yields [false]. *)
Record Engine (W : Type) := {
  NetlinkClient : Type;
  AuditMarshaller : Type;
  NetlinkMessage : Type;
  NewNetlinkClient : Z -> W -> option NetlinkClient * W;
  NewAuditMarshaller :
    option AuditWriter -> bool -> bool -> Z -> list AuditFilter ->
    W -> option AuditMarshaller * W;
  Receive : NetlinkClient -> W -> (option NetlinkMessage * option string) * W;
  Consume : AuditMarshaller -> NetlinkMessage -> W -> bool * W
}.
Arguments NetlinkClient {W} _.
Arguments AuditMarshaller {W} _.
Arguments NetlinkMessage {W} _.
Arguments NewNetlinkClient {W} _.
Arguments NewAuditMarshaller {W} _.
Arguments Receive {W} _.
Arguments Consume {W} _.

(** How the start-up part of [main] ends. *)
Inductive Startup (C Ma : Type) :=
| Exit (code : Z)
| Panic (v : string)
| Gone
| Started (nlClient : C) (marshaller : Ma).
Arguments Exit {C Ma} code.
Arguments Panic {C Ma} v.
Arguments Gone {C Ma}.
Arguments Started {C Ma} nlClient marshaller.

(** The status the process exits with: the argument of [os.Exit], and 2
    for a panic that reaches the top of the goroutine, as the Go run time
    does.  No status is known for the other two cases. *)
Definition exit_status {C Ma} (s : Startup C Ma) : option Z :=
  match s with
  | Exit code => Some code
  | Panic _ => Some 2
  | Gone => None
  | Started _ _ => None
  end.

Section Main.
Context {W : Type} (os : OS W) (eng : Engine W).

Local Abbreviation Outcome := (Startup (NetlinkClient eng) (AuditMarshaller eng)).

  (** [main] up to the main loop, for the value [configFile] that
      [flag.Parse] stored for [-config]. *)
Definition main (configFile : string) : M W Outcome :=
    logger.AuditLoggerNew (Some ref_l) (Some ref_el) None ;;
    if String.eqb configFile "" then
      logger.Err "A config file must be provided" [] ;;
      modify (emit Usage) ;;
      ret (Exit 1)
    else
    r <- loadConfig os configFile ;;
    match r with
    | Error err => logger.Crit "%v" [err] ;; ret (Panic err)
    | Ok config =>
    p <- createOutput os config ;;
    let writer := fst p in
    match snd p with
    | Some err => logger.Crit "%v" [err] ;; ret (Panic err)
    | None =>
    err <- setRules config (lExec os) ;;
    match err with
    | Some err => logger.Crit "%v" [err] ;; ret (Panic err)
    | None =>
    c <- sys (NewNetlinkClient eng (viper.GetInt config "socket_buffer.receive")) ;;
    match c with
    | None => ret Gone
    | Some nlClient =>
    fs <- createFilters os config ;;
    match fs with
    | Panicked v => ret (Panic v)
    | Returned filters =>
    m <- sys (NewAuditMarshaller eng writer
                (viper.GetBool config "message_tracking.enabled")
                (viper.GetBool config "message_tracking.log_out_of_order")
                (viper.GetInt config "message_tracking.max_out_of_order")
                filters) ;;
    match m with
    | None => ret Gone
    | Some marshaller =>
        logger.Info "Started processing events" [] ;;
        ret (Started nlClient marshaller)
    end end end end end end.

  (** One turn of the main loop; the result tells whether the process is
      still there for the next turn. *)
Definition iteration (nlClient : NetlinkClient eng)
      (marshaller : AuditMarshaller eng) : M W bool :=
    p <- sys (Receive eng nlClient) ;;
    let msg := fst p in
    match snd p with
    | Some err =>
        logger.Err "Error during message receive: %+v" [err] ;;
        ret true
    | None =>
        match msg with
        | None => ret true
        | Some msg => sys (Consume eng marshaller msg)
        end
    end.

  (** The first [n] turns of [for { ... }]. *)
Fixpoint loop (n : nat) (nlClient : NetlinkClient eng)
      (marshaller : AuditMarshaller eng) : M W bool :=
    match n with
    | O => ret true
    | S n' =>
        alive <- iteration nlClient marshaller ;;
        if alive then loop n' nlClient marshaller else ret false
    end.

End Main.

(** ** A concrete world *)

(** A small world to run the daemon in: the world is the journal of the
    system calls made so far.  [auditctl] rejects the option [-X], only
    [/etc/go-audit.yaml] can be read, only [root] is a known user and
    group, and the pattern ["("] does not compile. *)
Module Sample.

Definition World := list string.

Definition note {A} (what : string) (a : A) (w : World) : A * World :=
  (a, (w ++ [what])%list).

Definition run : executor World :=
  fun name args =>
    note (join " " (name :: args))
      (if existsb (String.eqb "-X") args then Some "exit status 1" else None).

Definition lookup_root {A} (what : string) (found : A) (name : string)
    : World -> result A * World :=
  note (what +:+ " " +:+ name)
    (if String.eqb name "root" then Ok found
     else Error (what +:+ ": unknown " +:+ what +:+ " " +:+ name)).

Definition os (file : gmap string value) : OS World :=
  {| exec_Run := run;
     ReadInConfig := fun path =>
       note ("read " +:+ path)
         (if String.eqb path "/etc/go-audit.yaml" then Ok file
          else Error ("open " +:+ path +:+ ": no such file or directory"));
     syslog_Dial := fun network address priority tag =>
       note ("dial " +:+ tag) (Ok 7);
     os_OpenFile := fun path mode =>
       note ("open " +:+ path)
         (if String.eqb path "" then Error "open : no such file or directory"
          else Ok 3);
     File_Chmod := fun f mode => note "chmod" None;
     File_Chown := fun f uid gid => note "chown" None;
     user_Lookup := lookup_root "user" {| Uid := "0" |};
     user_LookupGroup := lookup_root "group" {| Gid := "0" |};
     regexp_Compile := fun re =>
       if String.eqb re "(" then Some "error parsing regexp: missing closing ): `(`"
       else None |}.

(** A netlink client whose [Receive] yields the messages of a script, one
    per journal entry made so far by [Receive], and a marshaller that
    always returns. *)
Definition engine (script : list (option string * option string)) : Engine World :=
  {| NetlinkClient := unit;
     AuditMarshaller := unit;
     NetlinkMessage := string;
     NewNetlinkClient := fun size => note "netlink" (Some tt);
     NewAuditMarshaller := fun writer tracking logOOO maxOOO filters =>
       note "marshaller" (Some tt);
     Receive := fun c w =>
       note "receive"
         (nth (length (List.filter (String.eqb "receive") w)) script
              (None, Some "no buffer space available")) w;
     Consume := fun m msg => note ("consume " +:+ msg) true |}.

(** The configuration obtained from a file with the given settings. *)
Definition config (file : list (string * value)) : Viper :=
  viper.with_settings (list_to_map file) (config_defaults "/etc/go-audit.yaml").

Definition filter_of (message_type syscall regex : value) : value :=
  VMap [(VStr "message_type", message_type); (VStr "syscall", syscall);
        (VStr "regex", regex)].

End Sample.

(** ** Vocabulary of the properties *)

(** *** Rule installation *)

Definition command (inv : Invocation) : string * list string :=
  (inv_name inv, inv_args inv).

Definition succeeded (inv : Invocation) : Prop := inv_err inv = None.

(** The [auditctl] commands for a list of rules: one per non-empty rule,
    with the rule's whitespace-separated fields as arguments. *)
Definition rule_commands (rules : list string) : list (string * list string) :=
  map (fun v => ("auditctl", Strings.Fields v))
      (List.filter (fun v => negb (String.eqb v "")) rules).

(** The commands [setRules] sets out to run: the flush, then the rules. *)
Definition planned (config : Viper) : list (string * list string) :=
  ("auditctl", ["-D"]) :: rule_commands (viper.GetStringSlice config "rules").

(** The two ways a run of commands can go: all of [plan] ran and
    succeeded, or the run stopped at the first failure. *)
Definition ran_all (plan : list (string * list string)) (done : list Invocation) : Prop :=
  Forall succeeded done /\ map command done = plan.

Definition stopped_at_failure (plan : list (string * list string))
    (done : list Invocation) : Prop :=
  exists before failing err,
    done = (before ++ [failing])%list /\ Forall succeeded before /\
    inv_err failing = Some err /\ map command done `prefix_of` plan.

(** The commands of [plan] run in order through [e], each on the world
    that the one before left, up to and including the first for which [e]
    returns an error: the calls made, each with what [e] returned, and the
    world at the end. *)
Fixpoint run_commands {W} (e : executor W) (plan : list (string * list string))
    (w : W) : list Invocation * W :=
  match plan with
  | [] => ([], w)
  | (name, args) :: rest =>
      let '(err, w') := e name args w in
      let inv := {| inv_name := name; inv_args := args; inv_err := err |} in
      match err with
      | Some _ => ([inv], w')
      | None =>
          let '(done, w'') := run_commands e rest w' in
          (inv :: done, w'')
      end
  end.

(** *** Outputs *)

(** A constructor of an output returns a writer and no error, or no writer
    and an error. *)
Definition writer_xor_error (p : option AuditWriter * option string) : Prop :=
  (exists w, p = (Some w, None)) \/ (exists err, p = (None, Some err)).

(** The constructors of the outputs that the configuration enables, in the
    order in which [createOutput] looks at them. *)
Definition enabled_outputs {W} (os : OS W) (config : Viper)
    : list (M W (option AuditWriter * option string)) :=
  ((if viper.GetBool config "output.syslog.enabled"
    then [createSyslogOutput os config] else []) ++
   (if viper.GetBool config "output.file.enabled"
    then [createFileOutput os config] else []) ++
   (if viper.GetBool config "output.stdout.enabled"
    then [createStdOutOutput config] else []))%list.


(** The state after [l.SetOutput(os.Stderr)]. *)
Definition redirected {W} (st : State W) : State W :=
  with_l {| out := Stderr; flags := flags (l st) |} st.


(** *** Filters *)

Definition is_ok {A} (r : result A) : bool :=
  match r with Ok _ => true | Error _ => false end.

(** An invalid field of a filter: a value of [message_type], [regex] or
    [syscall] that has an unsupported shape, or that does not parse or
    compile. *)
Definition bad_field {W} (os : OS W) (k v : value) : bool :=
  if key_is k "message_type" then
    match v with
    | VStr ev => negb (is_ok (Strconv.ParseUint10 ev 64))
    | VInt _ => false
    | _ => true
    end
  else if key_is k "regex" then
    match v with
    | VStr re => bool_decide (regexp_Compile os re <> None)
    | _ => true
    end
  else if key_is k "syscall" then
    match v with
    | VStr _ | VInt _ => false
    | _ => true
    end
  else false.

(** An invalid entry of [filters]: not a map, or a map with an invalid
    field. *)
Definition invalid_filter {W} (os : OS W) (f : value) : bool :=
  match f with
  | VMap f2 => existsb (fun kv => bad_field os (fst kv) (snd kv)) f2
  | _ => true
  end.

(** The canonical typed form of the fields of a filter: the message type
    is the configured number converted to [uint16], the syscall is the
    configured string or the decimal text of the configured integer. *)
Inductive message_type_of : value -> Z -> Prop :=
| message_type_int n : message_type_of (VInt n) (n mod 2 ^ 16)
| message_type_string s n :
    Strconv.ParseUint10 s 64 = Ok n -> message_type_of (VStr s) (n mod 2 ^ 16).

Inductive syscall_of : value -> string -> Prop :=
| syscall_string s : syscall_of (VStr s) s
| syscall_int n : syscall_of (VInt n) (Strconv.Itoa n).

(** [af] is the typed form of the entry [f]: a map, with distinct keys as
    every Go map has, that gives a message type, a syscall and a pattern
    that compiles. *)
Definition normal_form {W} (os : OS W) (f : value) (af : AuditFilter) : Prop :=
  exists f2 mt sc re,
    f = VMap f2 /\ NoDup (f2.*1) /\
    (VStr "message_type", mt) ∈ f2 /\ message_type_of mt (MessageType af) /\
    (VStr "syscall", sc) ∈ f2 /\ syscall_of sc (Syscall af) /\
    (VStr "regex", VStr re) ∈ f2 /\ regexp_Compile os re = None /\
    Regex af = Some {| expr := re |}.

(** The effect of a field that [setField] accepts. *)
Definition assign (af : AuditFilter) (kv : value * value) : AuditFilter :=
  if key_is (fst kv) "message_type" then
    {| MessageType :=
         match snd kv with
         | VStr ev => match Strconv.ParseUint10 ev 64 with
                      | Ok fv => uint16 fv
                      | Error _ => MessageType af
                      end
         | VInt ev => uint16 ev
         | _ => MessageType af
         end;
       Syscall := Syscall af; Regex := Regex af |}
  else if key_is (fst kv) "regex" then
    {| MessageType := MessageType af; Syscall := Syscall af;
       Regex := match snd kv with
                | VStr re => Some {| expr := re |}
                | _ => Regex af
                end |}
  else if key_is (fst kv) "syscall" then
    {| MessageType := MessageType af;
       Syscall := match snd kv with
                  | VStr ev => ev
                  | VInt ev => Strconv.Itoa ev
                  | _ => Syscall af
                  end;
       Regex := Regex af |}
  else af.


(** *** Start-up *)

(** The state in which [main] calls [loadConfig]. *)
Definition after_AuditLoggerNew {W} (st : State W) : State W :=
  with_logger_vars (Some ref_l) (Some ref_el) None st.


(** Settings of a file that enables the stdout output, installs one rule,
    and gives [filters] as one map instead of a list of maps; the values in
    the map are ones no filter can have, a boolean message type and a
    pattern that does not compile. *)
Definition filters_as_map : list (string * value) :=
  [("output.stdout.enabled", VBool true); ("output.stdout.attempts", VInt 2);
   ("rules", VList [VStr "-a exit,always -S execve"]);
   ("filters", VMap [(VStr "message_type", VBool true); (VStr "regex", VStr "(")])].

(** A filter that gives a message type and a syscall and no pattern. *)
Definition filters_without_regex : value :=
  VList [VMap [(VStr "message_type", VInt 1300); (VStr "syscall", VStr "2")]].

(** ** Vocabulary of the further properties *)

(** *** Outputs and rules *)

(** Run constructors in order up to the first one that returns an error. *)
Fixpoint first_error {W} (cs : list (M W (option AuditWriter * option string)))
    : M W (option string) :=
  match cs with
  | [] => ret None
  | c :: rest =>
      p <- c ;;
      match snd p with
      | Some err => ret (Some err)
      | None => first_error rest
      end
  end.

(** The kind of output a writer writes to is enabled, and the writer has
    the attempts configured for that kind. *)
Definition writer_matches (config : Viper) (w : AuditWriter) : Prop :=
  match sink w with
  | SyslogSink _ =>
      viper.GetBool config "output.syslog.enabled" = true /\
      attempts w = viper.GetInt config "output.syslog.attempts"
  | FileSink _ =>
      viper.GetBool config "output.file.enabled" = true /\
      attempts w = viper.GetInt config "output.file.attempts"
  | StdoutSink =>
      viper.GetBool config "output.stdout.enabled" = true /\
      attempts w = viper.GetInt config "output.stdout.attempts"
  end.

(** An argument on a command line: not empty, no white space of ASCII in
    it. *)
Definition no_space (s : string) : bool :=
  forallb (fun c => negb (Strings.is_space c)) (list_ascii_of_string s).

Definition plain_argument (a : string) : Prop := a <> "" /\ no_space a = true.

(** The error [setRules] returns when rule number [k] fails. *)
Definition rule_error (k : Z) (err : string) : string :=
  "Failed to add rule #" +:+ Strconv.Itoa k +:+ ". Error: " +:+ err.

(** An invocation of [auditctl] with arguments free of white space. *)
Definition well_formed_invocation (inv : Invocation) : Prop :=
  inv_name inv = "auditctl" /\ Forall plain_argument (inv_args inv).

(** *** Filters *)

(** A key for which the [switch] of [createFilters] has no case. *)
Definition unknown_key (k : value) : Prop :=
  key_is k "message_type" = false /\ key_is k "regex" = false /\
  key_is k "syscall" = false.

(** Two entries of [filters] that [createFilters] treats alike: the same
    value, or two maps on which the loop over the fields does the same. *)
Definition same_fields {W} (os : OS W) (f f' : value) : Prop :=
  f = f' \/
  exists f2 f2', f = VMap f2 /\ f' = VMap f2' /\
    forall i af (st : State W), rangeFields os i f2 af st = rangeFields os i f2' af st.

(** *** Logging *)

(** An emission made through the loggers as they are in [st]: printed to
    where [l] or [el] writes, or sent to the syslog writer of [logger]. *)
Definition written_through {W} (st : State W) (e : Emitted) : Prop :=
  match e with
  | Printed to _ _ => to = out (l st) \/ to = out (el st)
  | Syslogged w _ _ _ => sysLog st = Some w
  | Usage => False
  end.

(** From [st] to [st'] the loggers have not changed, and what has been
    emitted since went through them. *)
Definition logged {W} (st st' : State W) : Prop :=
  loggers st' = loggers st /\
  exists new, emitted st' = (emitted st ++ new)%list /\
              Forall (written_through st) new.

(** [st'] differs from [st] at most in what has been logged. *)
Definition kept {W} (st st' : State W) : Prop :=
  world st' = world st /\ invoked st' = invoked st /\ logged st st'.

(** Nothing in [new] was printed to standard output. *)
Definition not_on_stdout (e : Emitted) : Prop :=
  match e with
  | Printed Stdout _ _ => False
  | _ => True
  end.

(** [st'] has the history of [st]: nothing was emitted or handed to an
    executor, [el] writes where it wrote and the variables of [logger] are
    the same. *)
Definition silent {W} (st st' : State W) : Prop :=
  invoked st' = invoked st /\ emitted st' = emitted st /\
  out (el st') = out (el st) /\ stdOut st' = stdOut st /\
  stdErr st' = stdErr st /\ sysLog st' = sysLog st.

(** *** The main loop *)

(** What a client has returned and what has been handed to the
    marshaller, in order. *)
Record Journal (Msg : Type) := {
  received : list (option Msg * option string);
  consumed : list Msg
}.
Arguments received {Msg} _.
Arguments consumed {Msg} _.

(** The engine [eng] with a journal kept beside its world: [Receive] enters
    what it returns, [Consume] enters the message it is given. *)
Definition journaled {W} (eng : Engine W)
    : Engine (W * Journal (NetlinkMessage eng)) :=
  {| NetlinkClient := NetlinkClient eng;
     AuditMarshaller := AuditMarshaller eng;
     NetlinkMessage := NetlinkMessage eng;
     NewNetlinkClient := fun size wj =>
       let '(c, w') := NewNetlinkClient eng size (fst wj) in (c, (w', snd wj));
     NewAuditMarshaller := fun writer tracking logOOO maxOOO filters wj =>
       let '(m, w') :=
         NewAuditMarshaller eng writer tracking logOOO maxOOO filters (fst wj) in
       (m, (w', snd wj));
     Receive := fun c wj =>
       let '(p, w') := Receive eng c (fst wj) in
       (p, (w', {| received := (received (snd wj) ++ [p])%list;
                   consumed := consumed (snd wj) |}));
     Consume := fun m msg wj =>
       let '(alive, w') := Consume eng m msg (fst wj) in
       (alive, (w', {| received := received (snd wj);
                       consumed := (consumed (snd wj) ++ [msg])%list |})) |}.

(** The state without the journal. *)
Definition erase {W J} (st : State (W * J)) : State W :=
  {| world := fst (world st); l := l st; el := el st; stdOut := stdOut st;
     stdErr := stdErr st; sysLog := sysLog st; emitted := emitted st;
     invoked := invoked st |}.

(** The message of a turn that goes to the marshaller, and the error of a
    turn that is logged. *)
Definition delivered {Msg} (p : option Msg * option string) : option Msg :=
  match p with
  | (Some msg, None) => Some msg
  | _ => None
  end.

Definition failure {Msg} (p : option Msg * option string) : option string := snd p.

(** The severity-indexed family of the eight functions of [logger]. *)
Definition logger_function {W} (sev : Severity) : string -> list string -> M W unit :=
  match sev with
  | SevEmerg => logger.Emerg
  | SevAlert => logger.Alert
  | SevCrit => logger.Crit
  | SevErr => logger.Err
  | SevWarning => logger.Warning
  | SevNotice => logger.Notice
  | SevInfo => logger.Info
  | SevDebug => logger.Debug
  end.

(** Severities up to warning go to the error logger. *)
Definition to_error_logger (sev : Severity) : bool :=
  match sev with
  | SevEmerg | SevAlert | SevCrit | SevErr | SevWarning => true
  | SevNotice | SevInfo | SevDebug => false
  end.

(** The line the main loop logs for an error of [Receive]. *)
Definition receive_error_line (to : Stream) (err : string) : Emitted :=
  Printed to "Error during message receive: %+v" [err].

(** Settings of a file that enables the stdout output, installs one rule
    and drops one kind of record. *)
Definition stdout_file : list (string * value) :=
  [("output.stdout.enabled", VBool true); ("output.stdout.attempts", VInt 2);
   ("rules", VList [VStr "-a exit,always -S execve"]);
   ("filters", VList [Sample.filter_of (VInt 1300) (VInt 59) (VStr "x")])].

(** * Properties *)

(** ** The library primitives on samples *)

Example Fields_rule :
  Strings.Fields "  -a exit,always	-F arch=b64 " = ["-a"; "exit,always"; "-F"; "arch=b64"].
Proof. reflexivity. Qed.

(** A no-break space, U+00A0, and an em space, U+2003, in UTF-8 separate
    fields as the white space of ASCII does; a byte that is no valid UTF-8
    does not. *)
Example Fields_unicode :
  let nbsp := String (ascii_of_nat 194) (String (ascii_of_nat 160) EmptyString) in
  let emsp := String (ascii_of_nat 226)
                (String (ascii_of_nat 128) (String (ascii_of_nat 131) EmptyString)) in
  let stray := String (ascii_of_nat 160) EmptyString in
  Strings.Fields ("-w" +:+ nbsp +:+ "/tmp" +:+ emsp +:+ "-p" +:+ stray +:+ "wa")
    = ["-w"; "/tmp"; "-p" +:+ stray +:+ "wa"].
Proof. vm_compute. reflexivity. Qed.

(** With base 0 the prefix of the literal gives the base, and underscores
    may separate digits. *)
Example ParseInt0_samples :
  Strconv.ParseInt0 "3" = Ok 3 /\
  Strconv.ParseInt0 "1_0" = Ok 10 /\
  Strconv.ParseInt0 "-0x1f" = Ok (-31) /\
  Strconv.ParseInt0 "017" = Ok 15 /\
  Strconv.ParseInt0 "0b101" = Ok 5 /\
  Strconv.ParseInt0 "1__0"
    = Error ("strconv.ParseInt: parsing " +:+ Strings.Quote "1__0" +:+ ": invalid syntax") /\
  Strconv.ParseInt0 "9223372036854775808"
    = Error ("strconv.ParseInt: parsing " +:+ Strings.Quote "9223372036854775808"
           +:+ ": value out of range").
Proof. repeat split; vm_compute; reflexivity. Qed.

Example ParseUint10_samples :
  Strconv.ParseUint10 "1300" 64 = Ok 1300 /\
  Strconv.ParseUint10 "007" 64 = Ok 7 /\
  Strconv.ParseUint10 "-1" 64
    = Error ("strconv.ParseUint: parsing " +:+ Strings.Quote "-1" +:+ ": invalid syntax") /\
  Strconv.ParseUint10 "18446744073709551616" 64
    = Error ("strconv.ParseUint: parsing " +:+ Strings.Quote "18446744073709551616"
           +:+ ": value out of range").
Proof. repeat split; vm_compute; reflexivity. Qed.


(** ** What logging leaves alone *)

Section LoggerFrame.
Context {W : Type}.

Lemma log_at_frame sev (fallback : State W -> option LoggerRef) format a st :
  let st' := snd (logger.log_at sev fallback format a st) in
  world st' = world st /\ loggers st' = loggers st /\ invoked st' = invoked st.
Proof.
  unfold logger.log_at, logger.Printf.
  destruct (sysLog st); [easy|]. destruct (fallback st); easy.
Qed.

Lemma log_at_world sev (fallback : State W -> option LoggerRef) format a st :
  world (snd (logger.log_at sev fallback format a st)) = world st.
Proof. apply log_at_frame. Qed.

Lemma log_at_invoked sev (fallback : State W -> option LoggerRef) format a st :
  invoked (snd (logger.log_at sev fallback format a st)) = invoked st.
Proof. apply log_at_frame. Qed.

Lemma log_at_loggers sev (fallback : State W -> option LoggerRef) format a st :
  loggers (snd (logger.log_at sev fallback format a st)) = loggers st.
Proof. apply log_at_frame. Qed.

Lemma sys_loggers {A} (f : W -> A * W) st : loggers (snd (sys f st)) = loggers st.
Proof. unfold sys. destruct (f (world st)). reflexivity. Qed.

End LoggerFrame.

(** ** Rule installation *)

Section Rules.
Context {W : Type}.

Lemma rule_commands_skip v rules :
  String.eqb v "" = true -> rule_commands (v :: rules) = rule_commands rules.
Proof. intros H. unfold rule_commands. simpl. rewrite H. reflexivity. Qed.

Lemma rule_commands_keep v rules :
  String.eqb v "" = false ->
  rule_commands (v :: rules) = ("auditctl", Strings.Fields v) :: rule_commands rules.
Proof. intros H. unfold rule_commands. simpl. rewrite H. reflexivity. Qed.

Lemma stopped_at_failure_cons c plan inv done :
  command inv = c -> succeeded inv ->
  stopped_at_failure plan done -> stopped_at_failure (c :: plan) (inv :: done).
Proof.
  intros Hc Hs (before & failing & err & -> & Hb & Hf & Hp).
  exists (inv :: before), failing, err. repeat split; auto.
  simpl. rewrite Hc. apply prefix_cons. exact Hp.
Qed.

Lemma addRules_invocations (e : executor W) rules : forall i st,
  exists done,
    invoked (snd (addRules e i rules st)) = (invoked st ++ done)%list /\
    ((fst (addRules e i rules st) = None /\ ran_all (rule_commands rules) done) \/
     ((exists msg, fst (addRules e i rules st) = Some msg) /\
      stopped_at_failure (rule_commands rules) done)).
Proof.
  induction rules as [|v rest IH]; intros i st.
  - exists []. simpl. rewrite app_nil_r. split; [reflexivity|].
    left. split; [reflexivity|]. split; [constructor | reflexivity].
  - simpl. destruct (String.eqb v "") eqn:Hv.
    + rewrite (rule_commands_skip _ _ Hv). apply IH.
    + rewrite (rule_commands_keep _ _ Hv).
      unfold bind, call.
      destruct (e "auditctl" (Strings.Fields v) (world st)) as [[err|] w'].
      * eexists [_]. simpl. split; [reflexivity|]. right.
        split; [eexists; reflexivity|].
        eexists [], _, err. simpl. repeat split; auto.
        apply prefix_cons, prefix_nil.
      * match goal with |- context [logger.Info ?f ?a ?s] =>
          destruct (logger.Info f a s) as [[] st1] eqn:Hlog end.
        assert (Hinv : invoked st1 = (invoked st ++
            [{| inv_name := "auditctl"; inv_args := Strings.Fields v;
                inv_err := None |}])%list).
        { change st1 with (snd (tt, st1)). rewrite <- Hlog.
          unfold logger.Info. rewrite log_at_invoked. reflexivity. }
        destruct (IH (i + 1) st1) as (done & Hd & Hcase).
        eexists (_ :: done). split.
        { rewrite Hd, Hinv, <- app_assoc. reflexivity. }
        destruct Hcase as [[Hr [Hall Hmap]] | [Hr Hstop]].
        -- left. split; [exact Hr|]. split.
           ++ constructor; [reflexivity | exact Hall].
           ++ simpl. rewrite Hmap. reflexivity.
        -- right. split; [exact Hr|].
           apply stopped_at_failure_cons; auto. reflexivity.
Qed.

Lemma setRules_outcome (config : Viper) (e : executor W) (st : State W) :
  exists done,
    invoked (snd (setRules config e st)) = (invoked st ++ done)%list /\
    ((ran_all (planned config) done /\
      fst (setRules config e st) =
        match viper.GetStringSlice config "rules" with
        | [] => Some "No audit rules found."
        | _ :: _ => None
        end) \/
     (stopped_at_failure (planned config) done /\
      exists msg, fst (setRules config e st) = Some msg)).
Proof.
  unfold setRules, planned, bind, call.
  destruct (e "auditctl" ["-D"] (world st)) as [[err|] w'].
  - eexists [_]. simpl. split; [reflexivity|]. right. split.
    + eexists [], _, err. simpl. repeat split; auto.
      apply prefix_cons, prefix_nil.
    + eexists; reflexivity.
  - match goal with |- context [logger.Info ?f ?a ?s] =>
      destruct (logger.Info f a s) as [[] st1] eqn:Hlog end.
    assert (Hinv : invoked st1 = (invoked st ++
        [{| inv_name := "auditctl"; inv_args := ["-D"]; inv_err := None |}])%list).
    { change st1 with (snd (tt, st1)). rewrite <- Hlog.
      unfold logger.Info. rewrite log_at_invoked. reflexivity. }
    destruct (viper.GetStringSlice config "rules") as [|v rules] eqn:Hrules.
    + simpl. eexists [_]. split; [exact Hinv|]. left. split; [|reflexivity].
      split; [repeat constructor | reflexivity].
    + cbn [length Nat.eqb negb].
      destruct (addRules_invocations e (v :: rules) 0 st1) as (done & Hd & Hcase).
      eexists (_ :: done). split.
      { rewrite Hd, Hinv, <- app_assoc. reflexivity. }
      destruct Hcase as [[Hr [Hall Hmap]] | [Hr Hstop]].
      * left. split; [|exact Hr]. split.
        -- constructor; [reflexivity | exact Hall].
        -- simpl. rewrite Hmap. reflexivity.
      * right. split; [|exact Hr].
        apply stopped_at_failure_cons; auto. reflexivity.
Qed.

Lemma addRules_run (e : executor W) rules : forall i st,
  let run := run_commands e (rule_commands rules) (world st) in
  invoked (snd (addRules e i rules st)) = (invoked st ++ fst run)%list /\
  world (snd (addRules e i rules st)) = snd run.
Proof.
  induction rules as [|v rest IH]; intros i st.
  - simpl. rewrite app_nil_r. split; reflexivity.
  - simpl. destruct (String.eqb v "") eqn:Hv.
    + rewrite (rule_commands_skip _ _ Hv). apply IH.
    + rewrite (rule_commands_keep _ _ Hv). cbn [run_commands].
      unfold bind, call.
      destruct (e "auditctl" (Strings.Fields v) (world st)) as [[err|] w'].
      * simpl. split; reflexivity.
      * match goal with |- context [logger.Info ?f ?a ?s] =>
          pose proof (log_at_invoked SevInfo stdOut f a s) as Hinv;
          pose proof (log_at_world SevInfo stdOut f a s) as Hw;
          fold (@logger.Info W) in Hinv, Hw;
          destruct (logger.Info f a s) as [[] st1] end.
        simpl in Hinv, Hw.
        specialize (IH (i + 1) st1). cbv zeta in IH. rewrite Hw in IH.
        destruct (run_commands e (rule_commands rest) w') as [done w''].
        simpl in IH |- *. destruct IH as [Hd Hw2]. split; [|exact Hw2].
        rewrite Hd, Hinv, <- app_assoc. reflexivity.
Qed.

Lemma setRules_run (config : Viper) (e : executor W) (st : State W) :
  let run := run_commands e (planned config) (world st) in
  invoked (snd (setRules config e st)) = (invoked st ++ fst run)%list /\
  world (snd (setRules config e st)) = snd run.
Proof.
  unfold setRules, planned, bind, call. cbn [run_commands].
  destruct (e "auditctl" ["-D"] (world st)) as [[err|] w'].
  - simpl. split; reflexivity.
  - match goal with |- context [logger.Info ?f ?a ?s] =>
      pose proof (log_at_invoked SevInfo stdOut f a s) as Hinv;
      pose proof (log_at_world SevInfo stdOut f a s) as Hw;
      fold (@logger.Info W) in Hinv, Hw;
      destruct (logger.Info f a s) as [[] st1] end.
    simpl in Hinv, Hw.
    destruct (viper.GetStringSlice config "rules") as [|v rules].
    + simpl. split; [exact Hinv | exact Hw].
    + cbn [length Nat.eqb negb].
      pose proof (addRules_run e (v :: rules) 0 st1) as IH.
      cbv zeta in IH. rewrite Hw in IH.
      destruct (run_commands e (rule_commands (v :: rules)) w') as [done w''].
      simpl in IH |- *. destruct IH as [Hd Hw2]. split; [|exact Hw2].
      rewrite Hd, Hinv, <- app_assoc. reflexivity.
Qed.

(** C3: what [setRules] does is run, through the executor it is given,
    [auditctl -D] and then one [auditctl] per non-empty rule, in
    configuration order, with the rule's whitespace-separated fields as
    arguments, each command in the world the one before left, up to and
    including the first for which the executor returns an error.  The
    history of invocations grows by exactly these calls, each recorded with
    the error the executor returned, and the world is the one the last of
    them left.  Either every command ran and the executor reported success
    for each, and the result is nil (or the complaint about an empty rule
    list); or the run stopped at the first command for which the executor
    returned an error, nothing was run after it, and the result is an
    error. *)
Theorem setRules_invocations (config : Viper) (e : executor W) (st : State W) :
  let run := run_commands e (planned config) (world st) in
  invoked (snd (setRules config e st)) = (invoked st ++ fst run)%list /\
  world (snd (setRules config e st)) = snd run /\
  ((ran_all (planned config) (fst run) /\
    fst (setRules config e st) =
      match viper.GetStringSlice config "rules" with
      | [] => Some "No audit rules found."
      | _ :: _ => None
      end) \/
   (stopped_at_failure (planned config) (fst run) /\
    exists msg, fst (setRules config e st) = Some msg)).
Proof.
  intros run.
  destruct (setRules_run config e st) as [Hinv Hw]. fold run in Hinv, Hw.
  destruct (setRules_outcome config e st) as (done & Hd & Hcase).
  assert (Heq : done = fst run).
  { apply (app_inv_head (invoked st)). rewrite <- Hd. exact Hinv. }
  subst done. repeat split; assumption.
Qed.

End Rules.

(** C9: with no rules configured (the key absent, or an empty list),
    [setRules] runs [auditctl -D] and nothing else, leaves the world as the
    flush left it, and returns an error: the complaint that no rules were
    found once the flush has succeeded, the flush failure otherwise. *)
Theorem setRules_no_rules {W} (config : Viper) (e : executor W) (st : State W) :
  viper.Get config "rules" = VNil \/ viper.Get config "rules" = VList [] ->
  let flush := e "auditctl" ["-D"] (world st) in
  let st' := snd (setRules config e st) in
  invoked st' = (invoked st ++
    [{| inv_name := "auditctl"; inv_args := ["-D"]; inv_err := fst flush |}])%list /\
  world st' = snd flush /\
  fst (setRules config e st) =
    Some (match fst flush with
          | None => "No audit rules found."
          | Some err => "Failed to flush existing audit rules. Error: " +:+ err
          end).
Proof.
  intros Hrules.
  assert (Hnone : viper.GetStringSlice config "rules" = []).
  { unfold viper.GetStringSlice. destruct Hrules as [-> | ->]; reflexivity. }
  unfold setRules, bind, call. cbv zeta.
  destruct (e "auditctl" ["-D"] (world st)) as [[err|] w']; simpl.
  - repeat split.
  - rewrite Hnone. simpl. unfold logger.Info.
    match goal with |- context [logger.log_at ?s ?f ?fm ?a ?x] =>
      pose proof (log_at_frame s f fm a x) as (Hw & _ & Hi);
      destruct (logger.log_at s f fm a x) as [[] st1] end.
    simpl in *. rewrite Hw, Hi. repeat split.
Qed.

Lemma setRules_no_rules_witness :
  fst (setRules (Sample.config []) Sample.run (initial [])) =
    Some "No audit rules found." /\
  world (snd (setRules (Sample.config []) Sample.run (initial []))) = ["auditctl -D"].
Proof.
  destruct (setRules_no_rules (Sample.config []) Sample.run (initial []))
    as (_ & Hworld & Hres).
  - left. reflexivity.
  - split; [exact Hres | exact Hworld].
Defined.

(** ** Output selection *)

(** Take the scrutinee of the first [match], [if] or destructuring [let] of
    the goal apart. *)
Ltac step :=
  match goal with
  | |- context [match ?x with _ => _ end] =>
      lazymatch x with
      | context [match _ with _ => _ end] => fail
      | _ => destruct x eqn:?
      end
  end.

Ltac run := unfold bind, ret, sys, modify; simpl; repeat (step; simpl).

Section Output.
Context {W : Type} (os : OS W).

Lemma createSyslogOutput_shape config st :
  writer_xor_error (fst (createSyslogOutput os config st)).
Proof.
  unfold createSyslogOutput, writer_xor_error, NewAuditWriter. run; eauto.
Qed.

Lemma createFileOutput_shape config st :
  writer_xor_error (fst (createFileOutput os config st)).
Proof.
  unfold createFileOutput, writer_xor_error, NewAuditWriter. run; eauto.
Qed.

Lemma createStdOutOutput_shape config (st : State W) :
  writer_xor_error (fst (createStdOutOutput config st)).
Proof.
  unfold createStdOutOutput, writer_xor_error, NewAuditWriter, SetOutput. run; eauto.
Qed.

End Output.

Section OutputSelection.
Context {W : Type} (os : OS W).

Ltac shape H p :=
  let E := fresh "E" in
  destruct H as [[? H] | [? H]]; destruct p as [? ?] eqn:E; simpl in H; subst; simpl.

Ltac use_run :=
  match goal with
  | E : ?c ?s = _ |- context [?c ?s] => rewrite E
  | E : ?c ?s = _, H : context [?c ?s] |- _ => rewrite E in H
  end.

(** C1: [createOutput] returns a writer and no error exactly when one
    output is enabled and the constructor of that output returns that
    writer; with no output or with more than one enabled it returns an
    error; and it never returns anything but a writer or an error. *)
Theorem createOutput_exactly_one (config : Viper) (st : State W) :
  (forall w, fst (createOutput os config st) = (Some w, None) <->
     exists create, enabled_outputs os config = [create] /\
                    fst (create st) = (Some w, None)) /\
  (length (enabled_outputs os config) <> 1%nat ->
     exists err, fst (createOutput os config st) = (None, Some err)) /\
  writer_xor_error (fst (createOutput os config st)).
Proof.
  unfold createOutput, output_block, enabled_outputs, bind, ret, writer_xor_error.
  destruct (viper.GetBool config "output.syslog.enabled");
  destruct (viper.GetBool config "output.file.enabled");
  destruct (viper.GetBool config "output.stdout.enabled"); simpl.
  all: repeat match goal with
    | |- context [createSyslogOutput ?o ?c ?s] =>
        let H := fresh in pose proof (createSyslogOutput_shape o c s) as H;
        shape H (createSyslogOutput o c s)
    | |- context [createFileOutput ?o ?c ?s] =>
        let H := fresh in pose proof (createFileOutput_shape o c s) as H;
        shape H (createFileOutput o c s)
    | |- context [createStdOutOutput ?c ?s] =>
        let H := fresh in pose proof (createStdOutOutput_shape c s) as H;
        shape H (createStdOutOutput c s)
    end.
  all: split; [| split].
  all: try solve [intros _; eauto | eauto | intros Hn; exfalso; apply Hn; reflexivity ].
  all: intros w; split;
    [ intros Heq;
      first [ discriminate Heq
            | injection Heq as <-; eexists; split;
              [reflexivity | use_run; reflexivity] ]
    | intros (create & Hl & Hc);
      first [ discriminate Hl
            | injection Hl as <-; use_run; simpl in Hc; congruence ] ].
Qed.

End OutputSelection.

Lemma createOutput_exactly_one_witness :
  (exists err,
     fst (createOutput (Sample.os ∅) (Sample.config []) (initial [])) = (None, Some err)) /\
  (exists err,
     fst (createOutput (Sample.os ∅)
            (Sample.config [("output.stdout.enabled", VBool true);
                            ("output.stdout.attempts", VInt 2);
                            ("output.syslog.enabled", VBool true)])
            (initial [])) = (None, Some err)) /\
  fst (createOutput (Sample.os ∅)
         (Sample.config [("output.stdout.enabled", VBool true);
                         ("output.stdout.attempts", VInt 2)])
         (initial [])) = (Some {| sink := StdoutSink; attempts := 2 |}, None).
Proof.
  split; [|split].
  - apply (createOutput_exactly_one (Sample.os ∅) (Sample.config []) (initial [])).
    vm_compute. lia.
  - apply (createOutput_exactly_one (Sample.os ∅)
             (Sample.config [("output.stdout.enabled", VBool true);
                             ("output.stdout.attempts", VInt 2);
                             ("output.syslog.enabled", VBool true)]) (initial [])).
    vm_compute. lia.
  - apply (createOutput_exactly_one (Sample.os ∅)
             (Sample.config [("output.stdout.enabled", VBool true);
                             ("output.stdout.attempts", VInt 2)]) (initial [])).
    eexists. split; reflexivity.
Defined.

(** ** Attempts *)

Section Attempts.
Context {W : Type} (os : OS W).

Lemma loadConfig_config configFile (st st' : State W) config :
  loadConfig os configFile st = (Ok config, st') ->
  config = viper.with_settings (settings config) (config_defaults configFile).
Proof.
  unfold loadConfig, bind, sys, ret.
  destruct (ReadInConfig os configFile (world st)) as [[read|err] w'];
    intros H; inversion H; reflexivity.
Qed.

(** C6: each of the three constructors returns an error, and does nothing
    else, when the attempts it reads are below 1; and a configuration
    loaded from a file that does not set [output.syslog.attempts] holds the
    default, the string 3, which [GetInt] reads as the integer 3, so that
    [createSyslogOutput] goes on to open the connection with 3 attempts. *)
Theorem attempts_at_least_one (config : Viper) (st : State W) :
  (viper.GetInt config "output.syslog.attempts" < 1 ->
   createSyslogOutput os config st =
     ((None, Some ("Output attempts for syslog must be at least 1, "
                   +:+ Strconv.Itoa (viper.GetInt config "output.syslog.attempts")
                   +:+ " provided")), st)) /\
  (viper.GetInt config "output.file.attempts" < 1 ->
   createFileOutput os config st =
     ((None, Some ("Output attempts for file must be at least 1, "
                   +:+ Strconv.Itoa (viper.GetInt config "output.file.attempts")
                   +:+ " provided")), st)) /\
  (viper.GetInt config "output.stdout.attempts" < 1 ->
   createStdOutOutput config st =
     ((None, Some ("Output attempts for stdout must be at least 1, "
                   +:+ Strconv.Itoa (viper.GetInt config "output.stdout.attempts")
                   +:+ " provided")), st)) /\
  (forall configFile st0 st1,
     loadConfig os configFile st0 = (Ok config, st1) ->
     settings config !! "output.syslog.attempts" = None ->
     viper.Get config "output.syslog.attempts" = VStr "3" /\
     viper.GetInt config "output.syslog.attempts" = 3 /\
     fst (createSyslogOutput os config st) =
       match fst (syslog_Dial os
                    (viper.GetString config "output.syslog.network")
                    (viper.GetString config "output.syslog.address")
                    (viper.GetInt config "output.syslog.priority")
                    (viper.GetString config "output.syslog.tag") (world st)) with
       | Ok syslogWriter =>
           (Some {| sink := SyslogSink syslogWriter; attempts := 3 |}, None)
       | Error err => (None, Some ("Failed to open syslog writer. Error: " +:+ err))
       end).
Proof.
  repeat split.
  - intros H. unfold createSyslogOutput.
    destruct (Z.ltb_spec (viper.GetInt config "output.syslog.attempts") 1); [reflexivity | lia].
  - intros H. unfold createFileOutput.
    destruct (Z.ltb_spec (viper.GetInt config "output.file.attempts") 1); [reflexivity | lia].
  - intros H. unfold createStdOutOutput.
    destruct (Z.ltb_spec (viper.GetInt config "output.stdout.attempts") 1); [reflexivity | lia].
  - apply loadConfig_config in H. rewrite H. unfold viper.Get. simpl.
    rewrite H0. reflexivity.
  - apply loadConfig_config in H. rewrite H. unfold viper.GetInt, viper.Get. simpl.
    rewrite H0. reflexivity.
  - assert (Hget : viper.GetInt config "output.syslog.attempts" = 3).
    { apply loadConfig_config in H. rewrite H. unfold viper.GetInt, viper.Get. simpl.
      rewrite H0. reflexivity. }
    unfold createSyslogOutput, bind, sys, ret, NewAuditWriter. rewrite Hget. simpl.
    destruct (syslog_Dial os _ _ _ _ (world st)) as [[w|err] w']; reflexivity.
Qed.

End Attempts.

Lemma attempts_at_least_one_witness :
  fst (createSyslogOutput (Sample.os ∅)
         (Sample.config [("output.syslog.attempts", VStr "0")]) (initial []))
    = (None, Some "Output attempts for syslog must be at least 1, 0 provided") /\
  fst (createFileOutput (Sample.os ∅)
         (Sample.config [("output.file.attempts", VInt (-1))]) (initial []))
    = (None, Some "Output attempts for file must be at least 1, -1 provided") /\
  fst (createStdOutOutput (Sample.config []) (initial ([] : Sample.World)))
    = (None, Some "Output attempts for stdout must be at least 1, 0 provided") /\
  fst (createSyslogOutput (Sample.os ∅) (Sample.config []) (initial []))
    = (Some {| sink := SyslogSink 7; attempts := 3 |}, None).
Proof.
  split; [|split; [|split]].
  - destruct (attempts_at_least_one (Sample.os ∅)
                (Sample.config [("output.syslog.attempts", VStr "0")]) (initial []))
      as (H & _).
    exact (f_equal fst (H ltac:(vm_compute; reflexivity))).
  - destruct (attempts_at_least_one (Sample.os ∅)
                (Sample.config [("output.file.attempts", VInt (-1))]) (initial []))
      as (_ & H & _).
    exact (f_equal fst (H ltac:(vm_compute; reflexivity))).
  - destruct (attempts_at_least_one (Sample.os ∅) (Sample.config []) (initial []))
      as (_ & _ & H & _).
    exact (f_equal fst (H ltac:(vm_compute; reflexivity))).
  - destruct (attempts_at_least_one (Sample.os ∅) (Sample.config []) (initial []))
      as (_ & _ & _ & H).
    destruct (H "/etc/go-audit.yaml" (initial [])
                (snd (loadConfig (Sample.os ∅) "/etc/go-audit.yaml" (initial []))))
      as (_ & _ & H3).
    + vm_compute. reflexivity.
    + vm_compute. reflexivity.
    + exact H3.
Defined.

(** ** The loggers *)

Section LoggerState.
Context {W : Type} (os : OS W).

Lemma createSyslogOutput_loggers config st :
  loggers (snd (createSyslogOutput os config st)) = loggers st.
Proof. unfold createSyslogOutput. run; reflexivity. Qed.

Lemma createFileOutput_loggers config st :
  loggers (snd (createFileOutput os config st)) = loggers st.
Proof. unfold createFileOutput. run; reflexivity. Qed.

Lemma createStdOutOutput_state config (st : State W) :
  snd (createStdOutOutput config st) =
    if viper.GetInt config "output.stdout.attempts" <? 1 then st else redirected st.
Proof.
  unfold createStdOutOutput, SetOutput, redirected. run; reflexivity.
Qed.

(** C10: a [createStdOutOutput] that returns its writer has pointed [l],
    the logger behind [logger.Info], at standard error and changed nothing
    else in the state; one that returns an error has changed nothing.
    [createSyslogOutput] and [createFileOutput] leave [l], [el] and the
    variables of [logger] as they were.  Hence after a [createOutput] that
    returned a writer with the stdout output enabled, [l] writes to
    standard error and [el] is as before. *)
Theorem stdout_output_redirects_l (config : Viper) (st : State W) :
  (forall w, fst (createStdOutOutput config st) = (Some w, None) ->
     snd (createStdOutOutput config st) = redirected st) /\
  (forall err, fst (createStdOutOutput config st) = (None, Some err) ->
     snd (createStdOutOutput config st) = st) /\
  loggers (snd (createSyslogOutput os config st)) = loggers st /\
  loggers (snd (createFileOutput os config st)) = loggers st /\
  (forall w, viper.GetBool config "output.stdout.enabled" = true ->
     fst (createOutput os config st) = (Some w, None) ->
     loggers (snd (createOutput os config st)) = loggers (redirected st)).
Proof.
  split; [|split; [|split; [|split]]].
  - intros w. rewrite createStdOutOutput_state.
    unfold createStdOutOutput. run; congruence.
  - intros err. rewrite createStdOutOutput_state.
    unfold createStdOutOutput, SetOutput, NewAuditWriter. run; congruence.
  - apply createSyslogOutput_loggers.
  - apply createFileOutput_loggers.
  - intros w Hen. unfold createOutput, output_block, bind, ret. rewrite Hen.
    destruct (viper.GetBool config "output.syslog.enabled") eqn:Hs;
    destruct (viper.GetBool config "output.file.enabled") eqn:Hf.
    all: repeat match goal with
      | |- context [createSyslogOutput ?o ?c ?s] =>
          let H := fresh in let E := fresh "E" in
          pose proof (createSyslogOutput_shape o c s) as H;
          destruct H as [[? H] | [? H]];
          destruct (createSyslogOutput o c s) as [? ?] eqn:E; simpl in H; subst; simpl
      | |- context [createFileOutput ?o ?c ?s] =>
          let H := fresh in let E := fresh "E" in
          pose proof (createFileOutput_shape o c s) as H;
          destruct H as [[? H] | [? H]];
          destruct (createFileOutput o c s) as [? ?] eqn:E; simpl in H; subst; simpl
      end.
    all: unfold createStdOutOutput, SetOutput, NewAuditWriter, bind, ret, modify.
    all: destruct (viper.GetInt config "output.stdout.attempts" <? 1); simpl.
    all: try discriminate.
    reflexivity.
Qed.

End LoggerState.

Lemma stdout_output_redirects_l_witness :
  loggers (snd (createOutput (Sample.os ∅)
                  (Sample.config [("output.stdout.enabled", VBool true);
                                  ("output.stdout.attempts", VInt 2)])
                  (initial [])))
    = ({| out := Stderr; flags := 0 |}, {| out := Stderr; flags := 0 |},
       None, None, None).
Proof.
  destruct (stdout_output_redirects_l (Sample.os ∅)
              (Sample.config [("output.stdout.enabled", VBool true);
                              ("output.stdout.attempts", VInt 2)]) (initial []))
    as (_ & _ & _ & _ & H).
  exact (H {| sink := StdoutSink; attempts := 2 |}
           ltac:(vm_compute; reflexivity) ltac:(vm_compute; reflexivity)).
Defined.

(** ** Filters *)

Arguments uint16 : simpl never.
Arguments Strconv.ParseUint10 : simpl never.
Arguments Strconv.Itoa : simpl never.



Section InvalidFilters.
Context {W : Type} (os : OS W).

Lemma setField_bad i k v af (st : State W) :
  bad_field os k v = true -> exists p, fst (setField os i k v af st) = Panicked p.
Proof.
  unfold bad_field, setField.
  destruct (key_is k "message_type").
  { destruct v; try discriminate; intros H; unfold bind, ret; simpl.
    all: try (destruct (logger.Crit _ _ st); simpl; eauto).
    destruct (Strconv.ParseUint10 s 64); [discriminate|].
    destruct (logger.Crit _ _ st); simpl; eauto. }
  destruct (key_is k "regex").
  { destruct v; try discriminate; intros H; unfold bind, ret; simpl.
    all: try (destruct (logger.Crit _ _ st); simpl; eauto).
    destruct (regexp_Compile os s); [|rewrite bool_decide_false in H; [discriminate|auto]].
    destruct (logger.Crit _ _ st); simpl; eauto. }
  destruct (key_is k "syscall").
  { destruct v; try discriminate; intros H; unfold bind, ret; simpl.
    all: destruct (logger.Crit _ _ st); simpl; eauto. }
  discriminate.
Qed.

Lemma rangeFields_bad i f2 : forall af (st : State W),
  existsb (fun kv => bad_field os (fst kv) (snd kv)) f2 = true ->
  exists p, fst (rangeFields os i f2 af st) = Panicked p.
Proof.
  induction f2 as [|[k v] rest IH]; intros af st H; [discriminate|].
  simpl in *. unfold bind.
  destruct (bad_field os k v) eqn:Hb.
  - destruct (setField_bad i k v af st Hb) as [p Hp].
    destruct (setField os i k v af st) as [r st1]. simpl in Hp. subst r.
    simpl. eauto.
  - simpl in H. destruct (setField os i k v af st) as [[af'|p] st1]; simpl; eauto.
Qed.

Lemma rangeFilters_invalid ft : forall i acc (st : State W),
  existsb (invalid_filter os) ft = true ->
  exists p, fst (rangeFilters os i ft acc st) = Panicked p.
Proof.
  induction ft as [|f rest IH]; intros i acc st H; [discriminate|].
  simpl in H. apply orb_true_iff in H.
  destruct f as [| | | |xs|f2];
    try (simpl; unfold bind; destruct (logger.Crit _ _ st); simpl; eauto; fail).
  simpl. unfold bind.
  destruct (rangeFields os i f2 _ st) as [[af|p] st1] eqn:Hf; simpl; eauto.
  destruct (Regex af); simpl; eauto.
  destruct (logger.Info _ _ st1) as [[] st2].
  destruct H as [H|H]; [|apply IH; exact H].
  simpl in H.
  destruct (rangeFields_bad i f2 {| MessageType := 0; Syscall := ""; Regex := None |} st H)
    as [p Hp].
  rewrite Hf in Hp. discriminate.
Qed.

End InvalidFilters.

Section Fatal.
Context {W : Type} (os : OS W).

Lemma createFilters_invalid config ft (st : State W) :
  viper.Get config "filters" = VList ft ->
  existsb (invalid_filter os) ft = true ->
  exists p, fst (createFilters os config st) = Panicked p.
Proof.
  intros Hget Hbad. unfold createFilters. rewrite Hget.
  apply rangeFilters_invalid. exact Hbad.
Qed.

(** C2, as amended: when the configuration read from the file has a
    [filters] value that is a list, with an invalid entry (an entry that is
    not a map, or a map in which [message_type], [regex] or [syscall] has
    an unsupported shape or does not parse or compile), [createFilters]
    panics in every state instead of returning a filter set, and [main]
    does not get to its main loop. *)
Theorem invalid_filter_is_fatal (eng : Engine W) configFile file ft (st : State W) :
  fst (ReadInConfig os configFile (world st)) = Ok file ->
  file !! "filters" = Some (VList ft) ->
  existsb (invalid_filter os) ft = true ->
  (forall st', exists p,
     fst (createFilters os
            (viper.with_settings file (config_defaults configFile)) st') = Panicked p) /\
  (forall nlClient marshaller,
     fst (main os eng configFile st) <> Started nlClient marshaller).
Proof.
  intros Hread Hfile Hbad.
  assert (Hpanic : forall st', exists p,
     fst (createFilters os
            (viper.with_settings file (config_defaults configFile)) st') = Panicked p).
  { intros st'. apply createFilters_invalid with ft; [|exact Hbad].
    unfold viper.Get. simpl. rewrite Hfile. reflexivity. }
  split; [exact Hpanic|].
  intros c m. unfold main, bind, logger.AuditLoggerNew, modify.
  destruct (String.eqb configFile "").
  { destruct (logger.Err _ _ _). simpl. discriminate. }
  unfold loadConfig, bind, sys. simpl.
  destruct (ReadInConfig os configFile (world st)) as [r w']. simpl in Hread. subst r.
  simpl.
  destruct (createOutput os _ _) as [[writer [err|]] st2]; simpl.
  { destruct (logger.Crit _ _ _). discriminate. }
  destruct (setRules _ _ _) as [[err|] st3]; simpl.
  { destruct (logger.Crit _ _ _). discriminate. }
  destruct (NewNetlinkClient eng _ _) as [[nl|] w3]; simpl; [|discriminate].
  match goal with |- context [createFilters os ?c ?s] =>
    destruct (Hpanic s) as [p Hp]; destruct (createFilters os c s) as [fs st4] end.
  simpl in Hp. subst fs. simpl. discriminate.
Qed.
End Fatal.

(** ** Normal form *)

Section NormalForm.
Context {W : Type} (os : OS W).

Lemma setField_good i k v af (st : State W) :
  bad_field os k v = false ->
  setField os i k v af st = (Returned (assign af (k, v)), st).
Proof.
  unfold bad_field, setField, assign. simpl.
  destruct (key_is k "message_type").
  { destruct v; try discriminate; [reflexivity|].
    destruct (Strconv.ParseUint10 s 64); [reflexivity | discriminate]. }
  destruct (key_is k "regex").
  { destruct v; try discriminate.
    destruct (regexp_Compile os s); [|reflexivity].
    rewrite bool_decide_true; [discriminate | discriminate]. }
  destruct (key_is k "syscall").
  { destruct v; try discriminate; reflexivity. }
  reflexivity.
Qed.

Lemma rangeFields_good i f2 : forall af (st : State W),
  Forall (fun kv => bad_field os (fst kv) (snd kv) = false) f2 ->
  rangeFields os i f2 af st = (Returned (fold_left assign f2 af), st).
Proof.
  induction f2 as [|[k v] rest IH]; intros af st H; [reflexivity|].
  inversion H as [|? ? Hkv Hrest]; subst. simpl in *. unfold bind.
  rewrite (setField_good _ _ _ _ _ Hkv). apply IH. exact Hrest.
Qed.

Lemma key_is_eq k name : key_is k name = true -> k = VStr name.
Proof.
  destruct k; try discriminate. simpl. intros H.
  apply String.eqb_eq in H. congruence.
Qed.

Lemma NoDup_fst_agree (f2 : entries) k v v' :
  NoDup (f2.*1) -> (k, v) ∈ f2 -> (k, v') ∈ f2 -> v = v'.
Proof.
  induction f2 as [|[k0 v0] rest IH]; intros Hnd H1 H2.
  - inversion H1.
  - simpl in Hnd. apply NoDup_cons in Hnd as [Hnotin Hnd].
    apply elem_of_cons in H1 as [H1|H1]; apply elem_of_cons in H2 as [H2|H2].
    + congruence.
    + inversion H1; subst. exfalso. apply Hnotin.
      apply list_elem_of_fmap. exists (k0, v'). auto.
    + inversion H2; subst. exfalso. apply Hnotin.
      apply list_elem_of_fmap. exists (k0, v). auto.
    + eauto.
Qed.

End NormalForm.

Section Selection.
Context {A : Type} (name : string) (proj : AuditFilter -> A).
Hypothesis other : forall af k v, k <> VStr name -> proj (assign af (k, v)) = proj af.

Lemma fold_assign_other (f2 : entries) : forall af,
  VStr name ∉ f2.*1 -> proj (fold_left assign f2 af) = proj af.
Proof.
  induction f2 as [|[k v] rest IH]; intros af Hnot; [reflexivity|].
  simpl in *. apply not_elem_of_cons in Hnot as [Hk Hrest].
  rewrite IH by exact Hrest. apply other. congruence.
Qed.

Lemma fold_assign_select (f2 : entries) v x :
  (forall af, proj (assign af (VStr name, v)) = x) ->
  NoDup (f2.*1) -> (VStr name, v) ∈ f2 ->
  forall af, proj (fold_left assign f2 af) = x.
Proof.
  intros Hset. induction f2 as [|[k0 v0] rest IH]; intros Hnd Hin af.
  - inversion Hin.
  - simpl in Hnd. apply NoDup_cons in Hnd as [Hnotin Hnd].
    apply elem_of_cons in Hin as [Heq|Hin].
    + inversion Heq; subst. simpl. rewrite fold_assign_other by exact Hnotin.
      apply Hset.
    + simpl. apply IH; assumption.
Qed.

End Selection.

Section Normalizes.
Context {W : Type} (os : OS W).

Lemma key_is_ne k name : k <> VStr name -> key_is k name = false.
Proof.
  intros H. destruct (key_is k name) eqn:E; [|reflexivity].
  apply key_is_eq in E. contradiction.
Qed.

Lemma assign_other_message_type af k v :
  k <> VStr "message_type" -> MessageType (assign af (k, v)) = MessageType af.
Proof.
  intros H. unfold assign. simpl. rewrite (key_is_ne _ _ H).
  destruct (key_is k "regex"); [reflexivity|].
  destruct (key_is k "syscall"); reflexivity.
Qed.

Lemma assign_other_syscall af k v :
  k <> VStr "syscall" -> Syscall (assign af (k, v)) = Syscall af.
Proof.
  intros H. unfold assign. simpl. rewrite (key_is_ne _ _ H).
  destruct (key_is k "message_type"); [reflexivity|].
  destruct (key_is k "regex"); reflexivity.
Qed.

Lemma assign_other_regex af k v :
  k <> VStr "regex" -> Regex (assign af (k, v)) = Regex af.
Proof.
  intros H. unfold assign. simpl. rewrite (key_is_ne _ _ H).
  destruct (key_is k "message_type"); [reflexivity|].
  destruct (key_is k "syscall"); reflexivity.
Qed.

Lemma normal_form_fields f2 mt sc re m s :
  NoDup (f2.*1) ->
  (VStr "message_type", mt) ∈ f2 -> message_type_of mt m ->
  (VStr "syscall", sc) ∈ f2 -> syscall_of sc s ->
  (VStr "regex", VStr re) ∈ f2 -> regexp_Compile os re = None ->
  Forall (fun kv => bad_field os (fst kv) (snd kv) = false) f2.
Proof.
  intros Hnd Hmt Hm Hsc Hs Hre Hc. apply Forall_forall. intros [k v] Hin.
  unfold bad_field. simpl.
  destruct (key_is k "message_type") eqn:E1.
  { apply key_is_eq in E1. subst k.
    rewrite (NoDup_fst_agree _ _ _ _ Hnd Hin Hmt).
    destruct Hm as [n | ev n Hp]; [reflexivity|]. rewrite Hp. reflexivity. }
  destruct (key_is k "regex") eqn:E2.
  { apply key_is_eq in E2. subst k.
    rewrite (NoDup_fst_agree _ _ _ _ Hnd Hin Hre).
    rewrite Hc. apply bool_decide_false. auto. }
  destruct (key_is k "syscall") eqn:E3; [|reflexivity].
  apply key_is_eq in E3. subst k.
  rewrite (NoDup_fst_agree _ _ _ _ Hnd Hin Hsc).
  destruct Hs; reflexivity.
Qed.

Lemma rangeFields_normal_form i f2 af af0 (st : State W) :
  normal_form os (VMap f2) af ->
  rangeFields os i f2 af0 st = (Returned af, st).
Proof.
  intros (f2' & mt & sc & re & Heq & Hnd & Hmt & Hm & Hsc & Hs & Hre & Hc & Hr).
  inversion Heq; subst f2'.
  rewrite rangeFields_good
    by (eapply normal_form_fields; eassumption).
  f_equal. f_equal.
  assert (H1 : MessageType (fold_left assign f2 af0) = MessageType af).
  { apply (fold_assign_select "message_type" MessageType assign_other_message_type
             f2 mt); auto.
    intros a. unfold assign. simpl.
    destruct Hm as [n | ev n Hp]; [reflexivity|]. rewrite Hp. reflexivity. }
  assert (H2 : Syscall (fold_left assign f2 af0) = Syscall af).
  { apply (fold_assign_select "syscall" Syscall assign_other_syscall f2 sc); auto.
    intros a. unfold assign. simpl. destruct Hs; reflexivity. }
  assert (H3 : Regex (fold_left assign f2 af0) = Regex af).
  { rewrite Hr.
    apply (fold_assign_select "regex" Regex assign_other_regex f2 (VStr re)); auto. }
  destruct (fold_left assign f2 af0), af. simpl in *. congruence.
Qed.

Lemma rangeFilters_normal_form ft afs :
  Forall2 (normal_form os) ft afs ->
  forall i acc (st : State W),
    fst (rangeFilters os i ft acc st) = Returned (acc ++ afs)%list.
Proof.
  induction 1 as [|f af ft afs Hf Hrest IH]; intros i acc st.
  - simpl. rewrite app_nil_r. reflexivity.
  - pose proof Hf as (f2 & mt & sc & re & -> & _ & _ & _ & _ & _ & _ & _ & Hr).
    simpl. unfold bind. rewrite (rangeFields_normal_form _ _ af _ _ Hf).
    rewrite Hr. destruct (logger.Info _ _ st) as [[] st1].
    rewrite IH. rewrite <- app_assoc. reflexivity.
Qed.

(** C5, as amended: for a [filters] list in which every entry gives a
    message type as an integer or as a decimal string that [ParseUint]
    accepts, a syscall as a string or as an integer, and a pattern that
    compiles, [createFilters] returns one filter per entry, in order, whose
    [MessageType] is the configured number reduced modulo 2^16, whose
    [Syscall] is the configured string or the decimal text of the
    configured integer, and whose [Regex] is the compiled pattern. *)
Theorem createFilters_normalizes config ft afs (st : State W) :
  viper.Get config "filters" = VList ft ->
  Forall2 (normal_form os) ft afs ->
  fst (createFilters os config st) = Returned afs.
Proof.
  intros Hget Hall. unfold createFilters. rewrite Hget.
  apply (rangeFilters_normal_form ft afs Hall 0 [] st).
Qed.

End Normalizes.

Section ExitStatus.
Context {W : Type} (os : OS W) (eng : Engine W).


End ExitStatus.

Section Loop.
Context {W : Type} (eng : Engine W).

(** C8: a turn of the main loop in which [Receive] returns an error
    emits one line, the format [Error during message receive: %+v] with
    the error as its operand, and goes on to the next turn.  The line goes
    to syslog at severity [LOG_ERR] when [sysLog] is set, and otherwise is
    printed by the logger [stdErr] points to; [main] has set [stdErr] to
    [el] before the loop starts, and only with both variables nil would
    nothing be emitted.  Nothing else changes: the world is as [Receive]
    left it, so [Consume] has not run, the loggers and the executor history
    are untouched, and the process is still there.  A turn in which
    [Receive] returns neither a message nor an error goes on likewise,
    without logging.  So a client that only ever yields errors or nothing
    keeps the loop running for any number of turns. *)
Theorem receive_error_continues (nlClient : NetlinkClient eng)
    (marshaller : AuditMarshaller eng) :
  (forall st msg err w' n,
     Receive eng nlClient (world st) = ((msg, Some err), w') ->
     exists st',
       iteration eng nlClient marshaller st = (true, st') /\
       emitted st' =
         (emitted st ++
          match sysLog st, stdErr st with
          | Some w, _ =>
              [Syslogged w SevErr "Error during message receive: %+v" [err]]
          | None, Some r =>
              [Printed (out (deref r st)) "Error during message receive: %+v" [err]]
          | None, None => []
          end)%list /\
       world st' = w' /\ loggers st' = loggers st /\ invoked st' = invoked st /\
       loop eng (S n) nlClient marshaller st = loop eng n nlClient marshaller st') /\
  (forall st w' n,
     Receive eng nlClient (world st) = ((None, None), w') ->
     iteration eng nlClient marshaller st = (true, with_world w' st) /\
     loop eng (S n) nlClient marshaller st
       = loop eng n nlClient marshaller (with_world w' st)) /\
  ((forall w, snd (fst (Receive eng nlClient w)) <> None \/
              fst (fst (Receive eng nlClient w)) = None) ->
   forall n st, fst (loop eng n nlClient marshaller st) = true).
Proof.
  assert (Herr : forall st msg err w',
     Receive eng nlClient (world st) = ((msg, Some err), w') ->
     iteration eng nlClient marshaller st =
       (true, snd (logger.Err "Error during message receive: %+v" [err]
                     (with_world w' st)))).
  { intros st msg err w' H. unfold iteration, bind, sys, ret. rewrite H. simpl.
    destruct (logger.Err _ _ _) as [[] st1]. reflexivity. }
  assert (Hnil : forall st w',
     Receive eng nlClient (world st) = ((None, None), w') ->
     iteration eng nlClient marshaller st = (true, with_world w' st)).
  { intros st w' H. unfold iteration, bind, sys, ret. rewrite H. reflexivity. }
  split; [|split].
  - intros st msg err w' n H.
    exists (snd (logger.Err "Error during message receive: %+v" [err]
                   (with_world w' st))).
    split; [apply (Herr _ _ _ _ H)|]. split; [|split; [|split; [|split]]].
    + unfold logger.Err, logger.log_at, logger.Printf. simpl.
      destruct (sysLog st) as [w|]; [reflexivity|].
      destruct (stdErr st) as [[]|]; simpl; try reflexivity.
      symmetry. apply app_nil_r.
    + unfold logger.Err. rewrite log_at_world. reflexivity.
    + unfold logger.Err. rewrite log_at_loggers. reflexivity.
    + unfold logger.Err. rewrite log_at_invoked. reflexivity.
    + simpl. unfold bind. rewrite (Herr _ _ _ _ H). reflexivity.
  - intros st w' n H. split; [apply (Hnil _ _ H)|].
    simpl. unfold bind. rewrite (Hnil _ _ H). reflexivity.
  - intros Hall n. induction n as [|n IH]; intros st; [reflexivity|].
    simpl. unfold bind.
    destruct (Receive eng nlClient (world st)) as [[msg err] w'] eqn:Hrecv.
    destruct err as [err|].
    + rewrite (Herr _ _ _ _ Hrecv). apply IH.
    + destruct (Hall (world st)) as [H|H]; rewrite Hrecv in H; simpl in H.
      * contradiction.
      * subst msg. rewrite (Hnil _ _ Hrecv). apply IH.
Qed.

End Loop.

(** ** Closed instances *)

Lemma invalid_filter_is_fatal_witness :
  exists p,
    fst (createFilters (Sample.os ∅)
           (viper.with_settings
              (list_to_map [("filters", VList [VMap [(VStr "syscall", VBool true)]])])
              (config_defaults "/etc/go-audit.yaml"))
           (initial [])) = Panicked p.
Proof.
  apply (invalid_filter_is_fatal
           (Sample.os (list_to_map [("filters", VList [VMap [(VStr "syscall", VBool true)]])]))
           (Sample.engine []) "/etc/go-audit.yaml"
           (list_to_map [("filters", VList [VMap [(VStr "syscall", VBool true)]])])
           [VMap [(VStr "syscall", VBool true)]] (initial [])).
  - vm_compute. reflexivity.
  - vm_compute. reflexivity.
  - vm_compute. reflexivity.
Defined.

Section MissingRegex.
Context {W : Type} (os : OS W).

(** A filter map without the key [regex], whose other fields are
    accepted, leaves [af.Regex] nil, and the [logger.Info] that follows
    reads through it. *)
Lemma createFilters_no_regex_key config f2 rest (st : State W) :
  viper.Get config "filters" = VList (VMap f2 :: rest) ->
  VStr "regex" ∉ f2.*1 ->
  Forall (fun kv => bad_field os (fst kv) (snd kv) = false) f2 ->
  fst (createFilters os config st) = Panicked nil_dereference.
Proof.
  intros Hget Hkey Hgood. unfold createFilters. rewrite Hget. simpl. unfold bind.
  rewrite (rangeFields_good os 0 f2 _ st Hgood).
  rewrite (fold_assign_other "regex" Regex assign_other_regex f2 _ Hkey).
  reflexivity.
Qed.

(** C4: on a filter that gives a message type and a syscall and no
    [regex], [createFilters] does not return: it panics on the nil
    [af.Regex], in every world and state. *)
Theorem createFilters_without_regex_panics (st : State W) :
  fst (createFilters os (Sample.config [("filters", filters_without_regex)]) st)
    = Panicked nil_dereference.
Proof.
  apply createFilters_no_regex_key
    with (f2 := [(VStr "message_type", VInt 1300); (VStr "syscall", VStr "2")])
         (rest := []).
  - vm_compute. reflexivity.
  - intros H. repeat (apply elem_of_cons in H as [H|H]; [discriminate H|]).
    inversion H.
  - repeat constructor.
Qed.

End MissingRegex.

(** A message type within the range of [uint16] is stored as it is. *)
Lemma message_type_in_range n : 0 <= n < 2 ^ 16 -> message_type_of (VInt n) n.
Proof.
  intros H. rewrite <- (Z.mod_small n (2 ^ 16)) at 2 by exact H. constructor.
Qed.

(** C5, as stated, fails: the message type 70000 is accepted and stored as
    4464. *)
Lemma createFilters_message_type_wraps :
  exists af,
    fst (createFilters (Sample.os ∅)
           (Sample.config
              [("filters", VList [Sample.filter_of (VInt 70000) (VStr "2") (VStr "x")])])
           (initial [])) = Returned [af] /\
    MessageType af = 4464 /\ MessageType af <> 70000.
Proof.
  exists {| MessageType := 4464; Syscall := "2"; Regex := Some {| expr := "x" |} |}.
  split; [vm_compute; reflexivity|]. split; [reflexivity | discriminate].
Defined.

(** C2, as stated, fails: a [filters] value that is a map and not a list
    is passed over, whatever it holds.  Here it holds a boolean message
    type and a pattern that does not compile; [createFilters] returns the
    empty filter set without logging anything, and [main] gets to its main
    loop. *)
Lemma filters_not_a_list_is_ignored :
  bad_field (Sample.os (list_to_map filters_as_map))
    (VStr "message_type") (VBool true) = true /\
  bad_field (Sample.os (list_to_map filters_as_map))
    (VStr "regex") (VStr "(") = true /\
  createFilters (Sample.os (list_to_map filters_as_map))
    (Sample.config filters_as_map) (initial [])
    = (Returned [], initial []) /\
  fst (main (Sample.os (list_to_map filters_as_map)) (Sample.engine [])
         "/etc/go-audit.yaml" (initial [])) = Started tt tt.
Proof.
  split; [vm_compute; reflexivity|]. split; [vm_compute; reflexivity|].
  split; vm_compute; reflexivity.
Defined.

Lemma createFilters_normalizes_witness :
  fst (createFilters (Sample.os ∅)
         (Sample.config
            [("filters", VList [Sample.filter_of (VStr "1300") (VInt 59) (VStr "^x")])])
         (initial []))
    = Returned [{| MessageType := 1300; Syscall := "59";
                   Regex := Some {| expr := "^x" |} |}].
Proof.
  apply (createFilters_normalizes (Sample.os ∅)
           (Sample.config
              [("filters", VList [Sample.filter_of (VStr "1300") (VInt 59) (VStr "^x")])])
           [Sample.filter_of (VStr "1300") (VInt 59) (VStr "^x")]).
  - vm_compute. reflexivity.
  - constructor; [|constructor].
    exists [(VStr "message_type", VStr "1300"); (VStr "syscall", VInt 59);
            (VStr "regex", VStr "^x")], (VStr "1300"), (VInt 59), "^x".
    split; [reflexivity|]. split.
    { repeat constructor; intros H;
        repeat (apply elem_of_cons in H as [H|H]; [discriminate H|]); inversion H. }
    split; [repeat constructor|]. split.
    { exact (message_type_string "1300" 1300 eq_refl). }
    split; [repeat constructor|]. split.
    { exact (syscall_int 59). }
    split; [repeat constructor|]. split; reflexivity.
Defined.



Lemma receive_error_continues_witness :
  exists st',
    iteration (Sample.engine [(None, Some "interrupted system call")]) tt tt
      (after_AuditLoggerNew (initial [])) = (true, st') /\
    emitted st'
      = [Printed Stderr "Error during message receive: %+v" ["interrupted system call"]] /\
    world st' = ["receive"].
Proof.
  destruct (receive_error_continues
              (Sample.engine [(None, Some "interrupted system call")]) tt tt)
    as (H & _ & _).
  assert (Hr : Receive (Sample.engine [(None, Some "interrupted system call")]) tt
                 (world (after_AuditLoggerNew (initial [])))
               = ((None, Some "interrupted system call"), ["receive"])).
  { vm_compute. reflexivity. }
  destruct (H _ None _ _ 0%nat Hr) as (st' & Hit & Hem & Hw & _).
  exists st'. split; [exact Hit|]. split; [exact Hem | exact Hw].
Defined.

(** ** Sample runs *)

Example createFilters_logs_the_filter :
  createFilters (Sample.os (list_to_map stdout_file)) (Sample.config stdout_file)
    (after_AuditLoggerNew (initial []))
  = (Returned [{| MessageType := 1300; Syscall := "59"; Regex := Some {| expr := "x" |} |}],
     emit (Printed Stdout
             ("Ignoring  syscall `%v` containing message type `%v` matching string `%s`"
                +:+ Strings.line_feed)
             ["59"; "1300"; "x"])
          (after_AuditLoggerNew (initial []))).
Proof. vm_compute. reflexivity. Qed.

Example setRules_stops_at_failure :
  map command
    (invoked (snd (setRules
       (Sample.config [("rules", VList [VStr "-a exit,always -S execve"; VStr "";
                                        VStr "-w /etc/passwd -X"; VStr "-w /tmp"])])
       Sample.run (initial []))))
    = [("auditctl", ["-D"]);
       ("auditctl", ["-a"; "exit,always"; "-S"; "execve"]);
       ("auditctl", ["-w"; "/etc/passwd"; "-X"])] /\
  fst (setRules
         (Sample.config [("rules", VList [VStr "-a exit,always -S execve"; VStr "";
                                          VStr "-w /etc/passwd -X"; VStr "-w /tmp"])])
         Sample.run (initial []))
    = Some "Failed to add rule #3. Error: exit status 1".
Proof. split; vm_compute; reflexivity. Qed.

Example missing_config_flag_exits_with_1 :
  fst (main (Sample.os ∅) (Sample.engine []) "" (initial [])) = Exit 1.
Proof. vm_compute. reflexivity. Qed.

(** * Further properties *)

Section LoadConfig.
Context {W : Type} (os : OS W).

(** X1: [loadConfig] gives [l] and [el] the same flags, the [log.flags] of
    the configuration (0 when the file does not set it), and changes
    neither where they write nor the histories; when the file cannot be
    read it returns the error and touches nothing but the world. *)
Theorem loadConfig_flags configFile (st : State W) :
  (forall err w', ReadInConfig os configFile (world st) = (Error err, w') ->
     loadConfig os configFile st = (Error err, with_world w' st)) /\
  (forall file w', ReadInConfig os configFile (world st) = (Ok file, w') ->
     let config := viper.with_settings file (config_defaults configFile) in
     let st' := snd (loadConfig os configFile st) in
     fst (loadConfig os configFile st) = Ok config /\
     l st' = {| out := out (l st); flags := viper.GetInt config "log.flags" |} /\
     el st' = {| out := out (el st); flags := viper.GetInt config "log.flags" |} /\
     world st' = w' /\ emitted st' = emitted st /\ invoked st' = invoked st /\
     (file !! "log.flags" = None -> flags (l st') = 0 /\ flags (el st') = 0)).
Proof.
  split.
  - intros err w' H. unfold loadConfig, bind, sys, ret. rewrite H. reflexivity.
  - intros file w' H. unfold loadConfig, bind, sys, ret, SetFlags, modify.
    rewrite H. simpl. repeat split.
    all: unfold viper.GetInt, viper.Get; simpl; rewrite H0; reflexivity.
Qed.


End LoadConfig.

Section OutputMore.
Context {W : Type} (os : OS W).

Lemma createSyslogOutput_writer config (st : State W) w :
  fst (createSyslogOutput os config st) = (Some w, None) ->
  1 <= attempts w /\ attempts w = viper.GetInt config "output.syslog.attempts" /\
  exists h, sink w = SyslogSink h.
Proof.
  unfold createSyslogOutput, NewAuditWriter, bind, sys, ret.
  destruct (Z.ltb_spec (viper.GetInt config "output.syslog.attempts") 1);
    [discriminate|].
  destruct (syslog_Dial os _ _ _ _ (world st)) as [[h|err] w']; simpl;
    intros Heq; inversion Heq; subst; simpl; eauto.
Qed.

Lemma createFileOutput_writer config (st : State W) w :
  fst (createFileOutput os config st) = (Some w, None) ->
  1 <= attempts w /\ attempts w = viper.GetInt config "output.file.attempts" /\
  exists f, sink w = FileSink f.
Proof.
  unfold createFileOutput, NewAuditWriter.
  destruct (Z.ltb_spec (viper.GetInt config "output.file.attempts") 1);
    [discriminate|].
  run; intros Heq; inversion Heq; subst; simpl; eauto.
Qed.

Lemma createStdOutOutput_writer config (st : State W) w :
  fst (createStdOutOutput config st) = (Some w, None) ->
  1 <= attempts w /\ attempts w = viper.GetInt config "output.stdout.attempts" /\
  sink w = StdoutSink.
Proof.
  unfold createStdOutOutput, NewAuditWriter, SetOutput, bind, modify, ret.
  destruct (Z.ltb_spec (viper.GetInt config "output.stdout.attempts") 1);
    [discriminate|].
  simpl. intros Heq; inversion Heq; subst; simpl; eauto.
Qed.

Lemma createOutput_selected config (st : State W) w :
  fst (createOutput os config st) = (Some w, None) ->
  exists create, enabled_outputs os config = [create] /\
                 fst (create st) = (Some w, None).
Proof.
  unfold createOutput, output_block, enabled_outputs, bind, ret.
  destruct (viper.GetBool config "output.syslog.enabled");
  destruct (viper.GetBool config "output.file.enabled");
  destruct (viper.GetBool config "output.stdout.enabled"); simpl.
  all: repeat match goal with
    | |- context [createSyslogOutput ?o ?c ?s] =>
        let H := fresh in let E := fresh "E" in
        pose proof (createSyslogOutput_shape o c s) as H;
        destruct H as [[? H] | [? H]];
        destruct (createSyslogOutput o c s) as [? ?] eqn:E; simpl in H; subst; simpl
    | |- context [createFileOutput ?o ?c ?s] =>
        let H := fresh in let E := fresh "E" in
        pose proof (createFileOutput_shape o c s) as H;
        destruct H as [[? H] | [? H]];
        destruct (createFileOutput o c s) as [? ?] eqn:E; simpl in H; subst; simpl
    | |- context [createStdOutOutput ?c ?s] =>
        let H := fresh in let E := fresh "E" in
        pose proof (createStdOutOutput_shape c s) as H;
        destruct H as [[? H] | [? H]];
        destruct (createStdOutOutput c s) as [? ?] eqn:E; simpl in H; subst; simpl
    end.
  all: intros Heq; try discriminate Heq; injection Heq as <-.
  all: eexists; split; [reflexivity|].
  all: match goal with E : ?c ?s = _ |- context [?c ?s] => rewrite E end; reflexivity.
Qed.

Lemma createOutput_shape_helper config (st : State W) :
  writer_xor_error (fst (createOutput os config st)).
Proof.
  unfold createOutput, output_block, bind, ret, writer_xor_error.
  destruct (viper.GetBool config "output.syslog.enabled");
  destruct (viper.GetBool config "output.file.enabled");
  destruct (viper.GetBool config "output.stdout.enabled"); simpl.
  all: repeat match goal with
    | |- context [createSyslogOutput ?o ?c ?s] =>
        let H := fresh in
        pose proof (createSyslogOutput_shape o c s) as H;
        destruct H as [[? H] | [? H]];
        destruct (createSyslogOutput o c s) as [? ?]; simpl in H; subst; simpl
    | |- context [createFileOutput ?o ?c ?s] =>
        let H := fresh in
        pose proof (createFileOutput_shape o c s) as H;
        destruct H as [[? H] | [? H]];
        destruct (createFileOutput o c s) as [? ?]; simpl in H; subst; simpl
    | |- context [createStdOutOutput ?c ?s] =>
        let H := fresh in
        pose proof (createStdOutOutput_shape c s) as H;
        destruct H as [[? H] | [? H]];
        destruct (createStdOutOutput c s) as [? ?]; simpl in H; subst; simpl
    end.
  all: eauto.
Qed.

(** X4: a writer returned by [createOutput] has at least one attempt,
    writes to a kind of output that is enabled, and has the attempts
    configured for that kind. *)
Theorem createOutput_writer config (st : State W) w :
  fst (createOutput os config st) = (Some w, None) ->
  1 <= attempts w /\ writer_matches config w.
Proof.
  intros H. destruct (createOutput_selected _ _ _ H) as (create & Hen & Hc).
  unfold enabled_outputs in Hen. unfold writer_matches.
  destruct (viper.GetBool config "output.syslog.enabled") eqn:Hs;
  destruct (viper.GetBool config "output.file.enabled") eqn:Hf;
  destruct (viper.GetBool config "output.stdout.enabled") eqn:Ho;
    simpl in Hen; try discriminate Hen; injection Hen as <-.
  - apply createSyslogOutput_writer in Hc as (H1 & H2 & h & H3). rewrite H3. auto.
  - apply createFileOutput_writer in Hc as (H1 & H2 & f & H3). rewrite H3. auto.
  - apply createStdOutOutput_writer in Hc as (H1 & H2 & H3). rewrite H3. auto.
Qed.

(** X3: [createOutput] runs the constructors of the enabled outputs in
    the order syslog, file, stdout, up to the first that fails, and returns
    that failure; the complaint about more than one output comes only after
    every enabled constructor has run and succeeded, with their effects on
    the state in place. *)
Theorem createOutput_first_error config (st : State W) :
  let cs := enabled_outputs os config in
  snd (createOutput os config st) = snd (first_error cs st) /\
  match fst (first_error cs st) with
  | Some err => fst (createOutput os config st) = (None, Some err)
  | None =>
      (1 < length cs)%nat ->
      fst (createOutput os config st)
        = (None, Some "Only one output can be enabled at a time")
  end.
Proof.
  unfold createOutput, output_block, enabled_outputs, bind, ret. cbv zeta.
  destruct (viper.GetBool config "output.syslog.enabled");
  destruct (viper.GetBool config "output.file.enabled");
  destruct (viper.GetBool config "output.stdout.enabled"); simpl.
  all: unfold bind, ret.
  all: repeat match goal with
    | |- context [createSyslogOutput ?o ?c ?s] =>
        let H := fresh in
        pose proof (createSyslogOutput_shape o c s) as H;
        destruct H as [[? H] | [? H]];
        destruct (createSyslogOutput o c s) as [? ?]; simpl in H; subst; simpl
    | |- context [createFileOutput ?o ?c ?s] =>
        let H := fresh in
        pose proof (createFileOutput_shape o c s) as H;
        destruct H as [[? H] | [? H]];
        destruct (createFileOutput o c s) as [? ?]; simpl in H; subst; simpl
    | |- context [createStdOutOutput ?c ?s] =>
        let H := fresh in
        pose proof (createStdOutOutput_shape c s) as H;
        destruct H as [[? H] | [? H]];
        destruct (createStdOutOutput c s) as [? ?]; simpl in H; subst; simpl
    end.
  all: split; try reflexivity; try (intros; lia); auto.
Qed.

(** X5: with attempts of at least 1, [createFileOutput] complains about
    the mode exactly when the configured mode is 0 modulo 2^32, and then
    returns before any system call: the state is untouched. *)
Theorem createFileOutput_mode_zero config (st : State W) :
  1 <= viper.GetInt config "output.file.attempts" ->
  ((viper.GetInt config "output.file.mode") mod 2 ^ 32 = 0 ->
   createFileOutput os config st =
     ((None, Some "Output file mode should be greater than 0000"), st)) /\
  (snd (fst (createFileOutput os config st))
     = Some "Output file mode should be greater than 0000" ->
   (viper.GetInt config "output.file.mode") mod 2 ^ 32 = 0).
Proof.
  intros Ha. unfold createFileOutput, uint32.
  destruct (Z.ltb_spec (viper.GetInt config "output.file.attempts") 1); [lia|].
  split.
  - intros Hm. rewrite Hm. reflexivity.
  - destruct (Z.ltb_spec ((viper.GetInt config "output.file.mode") mod 2 ^ 32) 1)
      as [Hlt|Hge].
    + intros _. pose proof (Z.mod_pos_bound (viper.GetInt config "output.file.mode")
                              (2 ^ 32) ltac:(lia)). lia.
    + unfold NewAuditWriter. run; intros Heq; discriminate Heq.
Qed.

End OutputMore.

Section RulesMore.
Context {W : Type}.

Lemma addRules_error (e : executor W) rules : forall i st msg,
  fst (addRules e i rules st) = Some msg ->
  exists (k : nat) v err,
    rules !! k = Some v /\ v <> "" /\
    msg = rule_error (i + Z.of_nat k + 1) err /\
    last (invoked (snd (addRules e i rules st)))
      = Some {| inv_name := "auditctl"; inv_args := Strings.Fields v;
                inv_err := Some err |}.
Proof.
  induction rules as [|v rest IH]; intros i st msg; simpl; [discriminate|].
  destruct (String.eqb_spec v "") as [Hv|Hv].
  - intros H. destruct (IH _ _ _ H) as (k & v' & err & Hk & Hne & Hmsg & Hlast).
    exists (S k), v', err. repeat split; auto.
    rewrite Hmsg. replace (i + Z.of_nat (S k) + 1) with (i + 1 + Z.of_nat k + 1) by lia.
    reflexivity.
  - unfold bind, call.
    destruct (e "auditctl" (Strings.Fields v) (world st)) as [[err|] w'].
    + simpl. intros H. inversion H. exists 0%nat, v, err.
      repeat split; auto.
      * replace (i + Z.of_nat 0 + 1) with (i + 1) by lia. reflexivity.
      * apply last_snoc.
    + destruct (logger.Info _ _ _) as [[] st1].
      intros H. destruct (IH _ _ _ H) as (k & v' & err & Hk & Hne & Hmsg & Hlast).
      exists (S k), v', err. repeat split; auto.
      rewrite Hmsg. replace (i + Z.of_nat (S k) + 1) with (i + 1 + Z.of_nat k + 1) by lia.
      reflexivity.
Qed.

(** X6: an error returned by [setRules] is the failure of the flush, or
    the complaint that no rules were found (with an empty rule list), or
    the failure of a rule; in the last case the number in the message is
    the position of that rule in the configured list, counted from 1 and
    counting empty rules, and the rule is the last command that was run. *)
Theorem setRules_error (config : Viper) (e : executor W) (st : State W) msg :
  fst (setRules config e st) = Some msg ->
  let st' := snd (setRules config e st) in
  (exists err,
     msg = "Failed to flush existing audit rules. Error: " +:+ err /\
     invoked st' = (invoked st ++
       [{| inv_name := "auditctl"; inv_args := ["-D"]; inv_err := Some err |}])%list) \/
  (msg = "No audit rules found." /\ viper.GetStringSlice config "rules" = []) \/
  (exists (k : nat) v err,
     viper.GetStringSlice config "rules" !! k = Some v /\ v <> "" /\
     msg = rule_error (Z.of_nat k + 1) err /\
     last (invoked st')
       = Some {| inv_name := "auditctl"; inv_args := Strings.Fields v;
                 inv_err := Some err |}).
Proof.
  unfold setRules, bind, call.
  destruct (e "auditctl" ["-D"] (world st)) as [[err|] w'].
  - simpl. intros H. inversion H. left. exists err. split; reflexivity.
  - destruct (logger.Info _ _ _) as [[] st1].
    destruct (viper.GetStringSlice config "rules") as [|v rules].
    + simpl. intros H. inversion H. right. left. split; reflexivity.
    + cbn [length Nat.eqb negb]. intros H. right. right.
      destruct (addRules_error e (v :: rules) 0 st1 msg H)
        as (k & v' & err & Hk & Hne & Hmsg & Hlast).
      exists k, v', err. repeat split; auto.
Qed.

End RulesMore.

Section Arguments.
Context {W : Type}.

Lemma is_space_high b : 128 <= Utf8.byte b -> Strings.is_space b = false.
Proof.
  unfold Utf8.byte, Strings.is_space. intros H.
  destruct (Nat.leb_spec (nat_of_ascii b) 13); [lia|].
  destruct (Nat.eqb_spec (nat_of_ascii b) 32); [lia|].
  rewrite andb_false_r. reflexivity.
Qed.

Lemma in_range_high lo hi b :
  128 <= lo -> Utf8.in_range lo hi b = true -> Strings.is_space b = false.
Proof.
  unfold Utf8.in_range. intros Hlo H. apply andb_true_iff in H as [H _].
  apply is_space_high. apply Z.leb_le in H. lia.
Qed.

Lemma IsSpace_ascii b :
  Utf8.byte b < 128 -> Unicode.IsSpace (Utf8.byte b) = Strings.is_space b.
Proof.
  unfold Utf8.byte, Unicode.IsSpace, Strings.is_space. intros H.
  set (n := nat_of_ascii b) in *.
  destruct (Z.leb_spec (Z.of_nat n) 255); [|lia].
  destruct (Z.leb_spec 9 (Z.of_nat n)), (Nat.leb_spec 9 n); try lia;
  destruct (Z.leb_spec (Z.of_nat n) 13), (Nat.leb_spec n 13); try lia;
  destruct (Z.eqb_spec (Z.of_nat n) 32), (Nat.eqb_spec n 32); try lia;
  destruct (Z.eqb_spec (Z.of_nat n) 133); try lia;
  destruct (Z.eqb_spec (Z.of_nat n) 160); try lia; reflexivity.
Qed.

Lemma DecodeRune_lead c s' r width :
  Utf8.DecodeRune (String c s') = (r, width) -> Unicode.IsSpace r = false ->
  Strings.is_space c = false.
Proof.
  unfold Utf8.DecodeRune.
  destruct (Z.ltb_spec (Utf8.byte c) 128) as [Hlow|Hhigh].
  - intros H Hr. inversion H; subst. rewrite <- IsSpace_ascii by exact Hlow. exact Hr.
  - intros _ _. apply is_space_high. exact Hhigh.
Qed.

Lemma DecodeRune_tail c s' r width :
  Utf8.DecodeRune (String c s') = (r, width) ->
  Forall (fun b => Strings.is_space b = false)
         (take (Nat.pred width) (list_ascii_of_string s')).
Proof.
  unfold Utf8.DecodeRune.
  destruct (Utf8.byte c <? 128); [intros H; inversion H; constructor|].
  destruct (Utf8.in_range 194 223 c).
  { destruct s' as [|b1 s1]; [intros H; inversion H; constructor|].
    destruct (Utf8.in_range 128 191 b1) eqn:H1; intros H; inversion H; simpl;
      repeat constructor.
    eapply in_range_high; [|exact H1]. lia. }
  destruct (Utf8.in_range 224 239 c).
  { destruct s' as [|b1 [|b2 s2]]; try (intros H; inversion H; constructor).
    destruct (Utf8.in_range _ _ b1) eqn:H1; simpl;
      [|intros H; inversion H; constructor].
    destruct (Utf8.in_range 128 191 b2) eqn:H2; intros H; inversion H; simpl;
      repeat constructor.
    - eapply in_range_high; [|exact H1]. destruct (Utf8.byte c =? 224); lia.
    - eapply in_range_high; [|exact H2]. lia. }
  destruct (Utf8.in_range 240 244 c).
  { destruct s' as [|b1 [|b2 [|b3 s3]]]; try (intros H; inversion H; constructor).
    destruct (Utf8.in_range _ _ b1) eqn:H1; simpl;
      [|intros H; inversion H; constructor].
    destruct (Utf8.in_range 128 191 b2) eqn:H2; simpl;
      [|intros H; inversion H; constructor].
    destruct (Utf8.in_range 128 191 b3) eqn:H3; intros H; inversion H; simpl;
      repeat constructor.
    - eapply in_range_high; [|exact H1]. destruct (Utf8.byte c =? 240); lia.
    - eapply in_range_high; [|exact H2]. lia.
    - eapply in_range_high; [|exact H3]. lia. }
  intros H; inversion H; constructor.
Qed.

Lemma field_plain cur :
  cur <> [] -> Forall (fun c => Strings.is_space c = false) cur ->
  plain_argument (string_of_list_ascii (rev cur)).
Proof.
  intros Hne Hall. split.
  - intros Heq. apply (f_equal list_ascii_of_string) in Heq.
    rewrite list_ascii_of_string_of_list_ascii in Heq. simpl in Heq.
    apply (f_equal (@rev ascii)) in Heq. rewrite rev_involutive in Heq.
    simpl in Heq. contradiction.
  - unfold no_space. rewrite list_ascii_of_string_of_list_ascii.
    apply forallb_forall. intros c Hin. apply in_rev in Hin.
    rewrite Forall_forall in Hall. rewrite Hall; [reflexivity|].
    apply list_elem_of_In. exact Hin.
Qed.

Lemma field_all_plain cur :
  Forall (fun c => Strings.is_space c = false) cur ->
  Forall plain_argument (Strings.field cur).
Proof.
  intros H. destruct cur as [|c cur']; [constructor|].
  constructor; [|constructor]. apply field_plain; [discriminate | exact H].
Qed.

Lemma fields_from_plain s : forall cur skip space,
  Forall (fun c => Strings.is_space c = false) cur ->
  (space = false ->
   Forall (fun c => Strings.is_space c = false) (take skip (list_ascii_of_string s))) ->
  Forall plain_argument (Strings.fields_from cur skip space s).
Proof.
  induction s as [|c s IH]; intros cur skip space Hcur Hskip.
  - simpl. apply field_all_plain. exact Hcur.
  - cbn [Strings.fields_from]. destruct skip as [|k].
    + destruct (Utf8.DecodeRune (String c s)) as [r width] eqn:Hd.
      destruct (Unicode.IsSpace r) eqn:Hr.
      * apply Forall_app. split; [apply field_all_plain; exact Hcur|].
        apply IH; [constructor | discriminate].
      * apply IH.
        -- constructor; [eapply DecodeRune_lead; eassumption | exact Hcur].
        -- intros _. eapply DecodeRune_tail. exact Hd.
    + destruct space.
      * apply IH; [exact Hcur | discriminate].
      * specialize (Hskip eq_refl). simpl in Hskip.
        apply Forall_cons in Hskip as [Hc Hrest].
        apply IH; [constructor; assumption | intros _; exact Hrest].
Qed.

Lemma Fields_plain s : Forall plain_argument (Strings.Fields s).
Proof. apply fields_from_plain; [constructor | intros _; constructor]. Qed.

Lemma addRules_arguments (e : executor W) rules : forall i st,
  exists done,
    invoked (snd (addRules e i rules st)) = (invoked st ++ done)%list /\
    Forall well_formed_invocation done.
Proof.
  induction rules as [|v rest IH]; intros i st; simpl.
  - exists []. rewrite app_nil_r. split; [reflexivity | constructor].
  - destruct (String.eqb v ""); [apply IH|].
    unfold bind, call.
    destruct (e "auditctl" (Strings.Fields v) (world st)) as [[err|] w'].
    + eexists [_]. split; [reflexivity|]. constructor; [|constructor].
      split; [reflexivity | apply Fields_plain].
    + match goal with |- context [logger.Info ?f ?a ?s] =>
        pose proof (log_at_invoked SevInfo stdOut f a s) as Hinv;
        fold (@logger.Info W) in Hinv;
        destruct (logger.Info f a s) as [[] st1] end.
      simpl in Hinv. destruct (IH (i + 1) st1) as (done & Hd & Hall).
      eexists (_ :: done). split.
      * rewrite Hd, Hinv. simpl. rewrite <- app_assoc. reflexivity.
      * constructor; [|exact Hall]. split; [reflexivity | apply Fields_plain].
Qed.

(** X7: the only command [setRules] ever runs is [auditctl], and no
    argument it passes is empty or holds white space. *)
Theorem setRules_arguments (config : Viper) (e : executor W) (st : State W) :
  exists done,
    invoked (snd (setRules config e st)) = (invoked st ++ done)%list /\
    Forall well_formed_invocation done.
Proof.
  assert (Hflush : forall err, well_formed_invocation
            {| inv_name := "auditctl"; inv_args := ["-D"]; inv_err := err |}).
  { intros err. split; [reflexivity|]. constructor; [|constructor].
    split; [discriminate | reflexivity]. }
  unfold setRules, bind, call.
  destruct (e "auditctl" ["-D"] (world st)) as [[err|] w'].
  - eexists [_]. split; [reflexivity|]. constructor; [apply Hflush | constructor].
  - match goal with |- context [logger.Info ?f ?a ?s] =>
      pose proof (log_at_invoked SevInfo stdOut f a s) as Hinv;
      fold (@logger.Info W) in Hinv;
      destruct (logger.Info f a s) as [[] st1] end.
    simpl in Hinv.
    destruct (negb _).
    + destruct (addRules_arguments e (viper.GetStringSlice config "rules") 0 st1)
        as (done & Hd & Hall).
      eexists (_ :: done). split.
      * rewrite Hd, Hinv. rewrite <- app_assoc. reflexivity.
      * constructor; [apply Hflush | exact Hall].
    + eexists [_]. split; [exact Hinv|]. constructor; [apply Hflush | constructor].
Qed.

End Arguments.

Section FiltersMore.
Context {W : Type} (os : OS W).

Lemma rangeFilters_same ft ft' :
  Forall2 (same_fields os) ft ft' ->
  forall i acc (st : State W),
    rangeFilters os i ft acc st = rangeFilters os i ft' acc st.
Proof.
  induction 1 as [|f f' ft ft' Hf Hrest IH]; intros i acc st; [reflexivity|].
  destruct Hf as [<- | (f2 & f2' & -> & -> & Hsame)].
  - destruct f; simpl; try reflexivity. unfold bind.
    destruct (rangeFields os i m _ st) as [[af|p] st1]; [|reflexivity].
    destruct (Regex af); [|reflexivity].
    destruct (logger.Info _ _ st1) as [[] st2]. apply IH.
  - simpl. unfold bind. rewrite Hsame.
    destruct (rangeFields os i f2' _ st) as [[af|p] st1]; [|reflexivity].
    destruct (Regex af); [|reflexivity].
    destruct (logger.Info _ _ st1) as [[] st2]. apply IH.
Qed.

Lemma same_fields_around (before after : list value) f f' :
  same_fields os f f' ->
  Forall2 (same_fields os) (before ++ f :: after)%list (before ++ f' :: after)%list.
Proof.
  intros H. apply Forall2_app.
  - apply Forall2_same_length_lookup_2; [reflexivity|].
    intros i x y Hx Hy. left. congruence.
  - constructor; [exact H|].
    apply Forall2_same_length_lookup_2; [reflexivity|].
    intros i x y Hx Hy. left. congruence.
Qed.

Lemma createFilters_same config config' (before after : list value) f f'
    (st : State W) :
  viper.Get config "filters" = VList (before ++ f :: after)%list ->
  viper.Get config' "filters" = VList (before ++ f' :: after)%list ->
  same_fields os f f' ->
  createFilters os config st = createFilters os config' st.
Proof.
  intros H H' Hsame. unfold createFilters. rewrite H, H'.
  apply rangeFilters_same, same_fields_around, Hsame.
Qed.

Lemma setField_unknown i k v af (st : State W) :
  unknown_key k -> setField os i k v af st = (Returned af, st).
Proof.
  intros (H1 & H2 & H3). unfold setField. rewrite H1, H2, H3. reflexivity.
Qed.

Lemma rangeFields_unknown i (pre : entries) k v (post : entries) : forall af (st : State W),
  unknown_key k ->
  rangeFields os i (pre ++ (k, v) :: post)%list af st
    = rangeFields os i (pre ++ post)%list af st.
Proof.
  induction pre as [|[k0 v0] pre IH]; intros af st Hk; simpl; unfold bind.
  - rewrite (setField_unknown _ _ _ _ _ Hk). reflexivity.
  - destruct (setField os i k0 v0 af st) as [[af'|p] st1]; [|reflexivity].
    apply IH. exact Hk.
Qed.

(** X11: a key of a filter other than [message_type], [regex] and
    [syscall] is ignored: with or without it, [createFilters] returns the
    same result and leaves the same state. *)
Theorem createFilters_ignores_unknown_keys config config' (before after : list value)
    (pre post : entries) k v (st : State W) :
  viper.Get config "filters"
    = VList (before ++ VMap (pre ++ (k, v) :: post) :: after)%list ->
  viper.Get config' "filters" = VList (before ++ VMap (pre ++ post) :: after)%list ->
  unknown_key k ->
  createFilters os config st = createFilters os config' st.
Proof.
  intros H H' Hk. apply (createFilters_same _ _ _ _ _ _ st H H').
  right. eexists _, _. split; [reflexivity|]. split; [reflexivity|].
  intros i af st'. apply rangeFields_unknown. exact Hk.
Qed.

Lemma assign_comm af x y :
  fst x <> fst y -> assign (assign af x) y = assign (assign af y) x.
Proof.
  destruct x as [kx vx], y as [ky vy]. simpl. intros Hne.
  unfold assign. simpl.
  destruct (key_is kx "message_type") eqn:X1;
  destruct (key_is ky "message_type") eqn:Y1;
  destruct (key_is kx "regex") eqn:X2;
  destruct (key_is ky "regex") eqn:Y2;
  destruct (key_is kx "syscall") eqn:X3;
  destruct (key_is ky "syscall") eqn:Y3; simpl; try reflexivity.
  all: exfalso; apply Hne;
    repeat match goal with H : key_is _ _ = true |- _ => apply key_is_eq in H end;
    congruence.
Qed.

Lemma fold_assign_permutation (f2 f2' : entries) :
  f2 ≡ₚ f2' -> NoDup (f2.*1) ->
  forall af, fold_left assign f2 af = fold_left assign f2' af.
Proof.
  induction 1 as [|x l l' Hp IH|x y l|l l' l'' Hp1 IH1 Hp2 IH2]; intros Hnd af.
  - reflexivity.
  - simpl. apply IH. simpl in Hnd. apply NoDup_cons in Hnd as [_ Hnd]. exact Hnd.
  - simpl. rewrite assign_comm; [reflexivity|].
    simpl in Hnd. apply NoDup_cons in Hnd as [Hnotin _].
    intros Heq. apply Hnotin. rewrite Heq. left.
  - rewrite IH1 by exact Hnd. apply IH2.
    rewrite <- Hp1. exact Hnd.
Qed.

(** X12: the order in which [range] visits a filter map does not matter:
    for a map with distinct keys whose fields are all accepted,
    [createFilters] returns the same result and the same state for every
    order of its entries. *)
Theorem createFilters_order_independent config config' (before after : list value)
    (f2 f2' : entries) (st : State W) :
  viper.Get config "filters" = VList (before ++ VMap f2 :: after)%list ->
  viper.Get config' "filters" = VList (before ++ VMap f2' :: after)%list ->
  NoDup (f2.*1) -> f2 ≡ₚ f2' ->
  Forall (fun kv => bad_field os (fst kv) (snd kv) = false) f2 ->
  createFilters os config st = createFilters os config' st.
Proof.
  intros H H' Hnd Hp Hgood. apply (createFilters_same _ _ _ _ _ _ st H H').
  right. eexists _, _. split; [reflexivity|]. split; [reflexivity|].
  intros i af st'.
  rewrite (rangeFields_good os i f2 af st' Hgood).
  rewrite (rangeFields_good os i f2' af st').
  - rewrite (fold_assign_permutation _ _ Hp Hnd). reflexivity.
  - rewrite <- Hp. exact Hgood.
Qed.

Lemma rangeFilters_returned ft : forall i acc (st : State W) fs,
  fst (rangeFilters os i ft acc st) = Returned fs ->
  exists new, fs = (acc ++ new)%list /\ length new = length ft /\
    Forall (fun af => Regex af <> None) new /\
    Forall (fun f => exists f2, f = VMap f2) ft.
Proof.
  induction ft as [|f rest IH]; intros i acc st fs; simpl.
  - intros H. inversion H. exists []. rewrite app_nil_r. repeat split; constructor.
  - destruct f as [| | | |xs|f2];
      try (unfold bind; destruct (logger.Crit _ _ st); discriminate).
    unfold bind.
    destruct (rangeFields os i f2 _ st) as [[af|p] st1]; [|discriminate].
    destruct (Regex af) as [re|] eqn:Hre; [|discriminate].
    destruct (logger.Info _ _ st1) as [[] st2].
    intros H. destruct (IH _ _ _ _ H) as (new & Hfs & Hlen & Hreg & Hmaps).
    exists (af :: new). repeat split.
    + rewrite Hfs, <- app_assoc. reflexivity.
    + simpl. rewrite Hlen. reflexivity.
    + constructor; [rewrite Hre; discriminate | exact Hreg].
    + constructor; [eauto | exact Hmaps].
Qed.

(** X13: when [createFilters] returns, it returns one filter per entry
    of the [filters] list, every entry is a map, and every filter has a
    compiled pattern. *)
Theorem createFilters_returned config ft (st : State W) fs :
  viper.Get config "filters" = VList ft ->
  fst (createFilters os config st) = Returned fs ->
  length fs = length ft /\
  Forall (fun af => Regex af <> None) fs /\
  Forall (fun f => exists f2, f = VMap f2) ft.
Proof.
  intros Hget. unfold createFilters. rewrite Hget. intros H.
  destruct (rangeFilters_returned _ _ _ _ _ H) as (new & Hfs & Hlen & Hreg & Hmaps).
  simpl in Hfs. subst fs. auto.
Qed.

(** X14: [createFilters] returns the empty filter set exactly when
    [filters] is absent, is not a list, or is the empty list; in these
    cases it changes nothing and logs nothing. *)
Theorem createFilters_empty config (st : State W) :
  (fst (createFilters os config st) = Returned [] <->
   forall f ft, viper.Get config "filters" <> VList (f :: ft)) /\
  ((forall f ft, viper.Get config "filters" <> VList (f :: ft)) ->
   createFilters os config st = (Returned [], st)).
Proof.
  assert (Hquiet : (forall f ft, viper.Get config "filters" <> VList (f :: ft)) ->
                   createFilters os config st = (Returned [], st)).
  { intros Hno. unfold createFilters.
    destruct (viper.Get config "filters") as [| | | |[|f ft]|]; try reflexivity.
    exfalso. apply (Hno f ft). reflexivity. }
  split; [|exact Hquiet]. split.
  - intros Hret f ft Hget.
    unfold createFilters in Hret. rewrite Hget in Hret.
    destruct (rangeFilters_returned _ _ _ _ _ Hret) as (new & Hfs & Hlen & _).
    destruct new; discriminate.
  - intros Hno. rewrite (Hquiet Hno). reflexivity.
Qed.

End FiltersMore.

Section Frames.
Context {W : Type} (os : OS W).

Lemma written_through_loggers (st st' : State W) e :
  loggers st' = loggers st -> written_through st' e -> written_through st e.
Proof.
  unfold loggers. intros H. inversion H as [[Hl Hel Hso Hse Hsl]].
  destruct e; simpl; congruence.
Qed.

Lemma logged_refl (st : State W) : logged st st.
Proof. split; [reflexivity|]. exists []. rewrite app_nil_r. split; [reflexivity|constructor]. Qed.

Lemma logged_trans (st1 st2 st3 : State W) :
  logged st1 st2 -> logged st2 st3 -> logged st1 st3.
Proof.
  intros (H1 & n1 & E1 & F1) (H2 & n2 & E2 & F2). split; [congruence|].
  exists (n1 ++ n2)%list. split.
  - rewrite E2, E1, <- app_assoc. reflexivity.
  - apply Forall_app. split; [exact F1|].
    eapply Forall_impl; [exact F2|]. intros e. apply written_through_loggers, H1.
Qed.

Lemma log_at_logged sev (fallback : State W -> option LoggerRef) format a st :
  logged st (snd (logger.log_at sev fallback format a st)).
Proof.
  unfold logger.log_at, logger.Printf.
  destruct (sysLog st) as [w|] eqn:Hs.
  - split; [reflexivity|]. eexists [_]. split; [reflexivity|].
    constructor; [exact Hs | constructor].
  - destruct (fallback st) as [r|]; [|apply logged_refl].
    split; [reflexivity|]. eexists [_]. split; [reflexivity|].
    constructor; [|constructor]. destruct r; simpl; auto.
Qed.

Lemma sys_logged {A} (f : W -> A * W) (st : State W) : logged st (snd (sys f st)).
Proof.
  unfold sys. destruct (f (world st)) as [a w']. simpl.
  split; [reflexivity|]. exists []. rewrite app_nil_r. split; [reflexivity|constructor].
Qed.

Lemma call_logged (e : executor W) name args (st : State W) :
  logged st (snd (call e name args st)).
Proof.
  unfold call. destruct (e name args (world st)) as [err w']. simpl.
  split; [reflexivity|]. exists []. rewrite app_nil_r. split; [reflexivity|constructor].
Qed.

Lemma kept_refl (st : State W) : kept st st.
Proof. repeat split. apply logged_refl. Qed.

Lemma kept_trans (st1 st2 st3 : State W) : kept st1 st2 -> kept st2 st3 -> kept st1 st3.
Proof.
  intros (H1 & H2 & H3) (H4 & H5 & H6).
  split; [congruence|]. split; [congruence|]. eapply logged_trans; eassumption.
Qed.

Lemma log_at_kept sev (fallback : State W -> option LoggerRef) format a st :
  kept st (snd (logger.log_at sev fallback format a st)).
Proof.
  split; [apply log_at_world|]. split; [apply log_at_invoked|]. apply log_at_logged.
Qed.

Lemma setField_kept i k v af (st : State W) :
  kept st (snd (setField os i k v af st)).
Proof.
  unfold setField, logger.Crit, bind, ret.
  repeat match goal with
  | |- context [logger.log_at ?s ?f ?fm ?a ?x] =>
      pose proof (log_at_kept s f fm a x);
      destruct (logger.log_at s f fm a x) as [[] ?]
  | |- context [match ?x with _ => _ end] => destruct x
  end; simpl in *; auto using kept_refl.
Qed.

Lemma rangeFields_kept i f2 : forall af (st : State W),
  kept st (snd (rangeFields os i f2 af st)).
Proof.
  induction f2 as [|[k v] rest IH]; intros af st; simpl; [apply kept_refl|].
  unfold bind. pose proof (setField_kept i k v af st) as Hk.
  destruct (setField os i k v af st) as [[af'|p] st1]; simpl in *; [|exact Hk].
  eapply kept_trans; [exact Hk | apply IH].
Qed.

Lemma rangeFilters_kept ft : forall i acc (st : State W),
  kept st (snd (rangeFilters os i ft acc st)).
Proof.
  induction ft as [|f rest IH]; intros i acc st; simpl; [apply kept_refl|].
  assert (Hcrit : forall fm a, kept st (snd (logger.Crit fm a st)))
    by (intros; apply log_at_kept).
  destruct f as [| | | |xs|f2];
    try (unfold bind; specialize (Hcrit "Could not parse filter %d, %v");
         match goal with |- context [logger.Crit ?fm ?a st] =>
           specialize (Hcrit a); destruct (logger.Crit fm a st) end; exact Hcrit).
  unfold bind. pose proof (rangeFields_kept i f2
    {| MessageType := 0; Syscall := ""; Regex := None |} st) as Hk.
  destruct (rangeFields os i f2 _ st) as [[af|p] st1]; simpl in *; [|exact Hk].
  destruct (Regex af); [|exact Hk].
  match goal with |- context [logger.Info ?fm ?a st1] =>
    pose proof (log_at_kept SevInfo stdOut fm a st1) as Hi;
    fold (@logger.Info W) in Hi; destruct (logger.Info fm a st1) as [[] st2] end.
  simpl in Hi. eapply kept_trans; [exact Hk|]. eapply kept_trans; [exact Hi | apply IH].
Qed.

Lemma createFilters_kept config (st : State W) :
  kept st (snd (createFilters os config st)).
Proof.
  unfold createFilters.
  destruct (viper.Get config "filters") as [| | | |ft|]; try apply kept_refl.
  apply rangeFilters_kept.
Qed.

(** X10: [createFilters] leaves the world, the loggers and the history of
    executor calls as they were, whether it returns or panics; all it does
    to the state is to emit through the loggers. *)
Theorem createFilters_frame config (st : State W) :
  kept st (snd (createFilters os config st)).
Proof.
  unfold createFilters.
  destruct (viper.Get config "filters") as [| | | |ft|].
  1-4, 6: apply kept_refl.
  apply (rangeFilters_kept ft 0 [] st).
Qed.

Lemma silent_refl (st : State W) : silent st st.
Proof. repeat split. Qed.

Lemma silent_trans (st1 st2 st3 : State W) :
  silent st1 st2 -> silent st2 st3 -> silent st1 st3.
Proof.
  intros (A1 & A2 & A3 & A4 & A5 & A6) (B1 & B2 & B3 & B4 & B5 & B6).
  repeat split; congruence.
Qed.

Lemma loadConfig_silent configFile (st : State W) :
  silent st (snd (loadConfig os configFile st)).
Proof.
  unfold loadConfig, SetFlags. run; repeat split.
Qed.

Lemma createSyslogOutput_silent config (st : State W) :
  silent st (snd (createSyslogOutput os config st)).
Proof. unfold createSyslogOutput. run; repeat split. Qed.

Lemma createFileOutput_silent config (st : State W) :
  silent st (snd (createFileOutput os config st)).
Proof. unfold createFileOutput. run; repeat split. Qed.

Lemma createStdOutOutput_silent config (st : State W) :
  silent st (snd (createStdOutOutput config st)).
Proof. unfold createStdOutOutput, SetOutput. run; repeat split. Qed.

Lemma createOutput_silent config (st : State W) :
  silent st (snd (createOutput os config st)).
Proof.
  unfold createOutput, output_block, bind, ret.
  destruct (viper.GetBool config "output.syslog.enabled");
  destruct (viper.GetBool config "output.file.enabled");
  destruct (viper.GetBool config "output.stdout.enabled"); simpl.
  all: repeat match goal with
    | |- context [createSyslogOutput ?o ?c ?s] =>
        pose proof (createSyslogOutput_silent c s);
        destruct (createSyslogOutput o c s) as [[? [?|]] ?]; simpl in *
    | |- context [createFileOutput ?o ?c ?s] =>
        pose proof (createFileOutput_silent c s);
        destruct (createFileOutput o c s) as [[? [?|]] ?]; simpl in *
    | |- context [createStdOutOutput ?c ?s] =>
        pose proof (createStdOutOutput_silent c s);
        destruct (createStdOutOutput c s) as [[? [?|]] ?]; simpl in *
    end.
  all: repeat match goal with |- context [match ?x with _ => _ end] => destruct x end.
  all: simpl; eauto using silent_refl, silent_trans.
Qed.

End Frames.

Section MainCases.
Context {W : Type} (os : OS W) (eng : Engine W).

Local Abbreviation Outcome := (Startup (NetlinkClient eng) (AuditMarshaller eng)).

(** The eight ways through the start-up of [main]. *)
Lemma main_cases (configFile : string) (st : State W)
    (P : Outcome * State W -> Prop) :
  let st0 := after_AuditLoggerNew st in
  (configFile = "" ->
   P (Exit 1, emit Usage (snd (logger.Err "A config file must be provided" [] st0)))) ->
  (forall err st1,
     configFile <> "" ->
     loadConfig os configFile st0 = (Error err, st1) ->
     P (Panic err, snd (logger.Crit "%v" [err] st1))) ->
  (forall config st1 writer err st2,
     configFile <> "" ->
     loadConfig os configFile st0 = (Ok config, st1) ->
     createOutput os config st1 = ((writer, Some err), st2) ->
     P (Panic err, snd (logger.Crit "%v" [err] st2))) ->
  (forall config st1 writer st2 err st3,
     configFile <> "" ->
     loadConfig os configFile st0 = (Ok config, st1) ->
     createOutput os config st1 = ((writer, None), st2) ->
     setRules config (lExec os) st2 = (Some err, st3) ->
     P (Panic err, snd (logger.Crit "%v" [err] st3))) ->
  (forall config st1 writer st2 st3 nl w4,
     configFile <> "" ->
     loadConfig os configFile st0 = (Ok config, st1) ->
     createOutput os config st1 = ((writer, None), st2) ->
     setRules config (lExec os) st2 = (None, st3) ->
     NewNetlinkClient eng (viper.GetInt config "socket_buffer.receive") (world st3)
       = (nl, w4) ->
     match nl with
     | None => P (Gone, with_world w4 st3)
     | Some nlClient =>
         forall fs st5,
           createFilters os config (with_world w4 st3) = (fs, st5) ->
           match fs with
           | Panicked v => P (Panic v, st5)
           | Returned filters =>
               forall m w6,
                 NewAuditMarshaller eng writer
                   (viper.GetBool config "message_tracking.enabled")
                   (viper.GetBool config "message_tracking.log_out_of_order")
                   (viper.GetInt config "message_tracking.max_out_of_order")
                   filters (world st5) = (m, w6) ->
                 match m with
                 | None => P (Gone, with_world w6 st5)
                 | Some marshaller =>
                     P (Started nlClient marshaller,
                        snd (logger.Info "Started processing events" []
                               (with_world w6 st5)))
                 end
           end
     end) ->
  P (main os eng configFile st).
Proof.
  intros st0 H1 H2 H3 H4 H5.
  unfold main, bind, logger.AuditLoggerNew, modify, ret. cbv beta iota zeta.
  fold (after_AuditLoggerNew st). fold st0.
  destruct (String.eqb_spec configFile "") as [Hempty|Hfile].
  { specialize (H1 Hempty). destruct (logger.Err _ _ st0) as [[] s]. exact H1. }
  destruct (loadConfig os configFile st0) as [[config|err] st1] eqn:Hload.
  2: { specialize (H2 err st1 Hfile eq_refl).
       destruct (logger.Crit _ _ st1) as [[] s]. exact H2. }
  destruct (createOutput os config st1) as [[writer [err|]] st2] eqn:Hout;
    cbv beta iota zeta; cbn [fst snd].
  { specialize (H3 config st1 writer err st2 Hfile eq_refl Hout).
    destruct (logger.Crit _ _ st2) as [[] s]. exact H3. }
  destruct (setRules config (lExec os) st2) as [[err|] st3] eqn:Hrules.
  { specialize (H4 config st1 writer st2 err st3 Hfile eq_refl Hout Hrules).
    destruct (logger.Crit _ _ st3) as [[] s]. exact H4. }
  unfold sys at 1.
  destruct (NewNetlinkClient eng _ (world st3)) as [nl w4] eqn:Hnl.
  specialize (H5 config st1 writer st2 st3 nl w4 Hfile eq_refl Hout Hrules Hnl).
  destruct nl as [nlClient|]; [|exact H5].
  destruct (createFilters os config (with_world w4 st3)) as [fs st5] eqn:Hfs.
  specialize (H5 fs st5 eq_refl).
  destruct fs as [filters|v]; [|exact H5].
  unfold sys.
  destruct (NewAuditMarshaller eng writer _ _ _ filters (world st5)) as [m w6] eqn:Hm.
  specialize (H5 m w6 eq_refl).
  destruct m as [marshaller|]; [|exact H5].
  destruct (logger.Info _ _ _) as [[] s]. exact H5.
Qed.

End MainCases.

Section RulesFrame.
Context {W : Type}.

Lemma addRules_logged (e : executor W) rules : forall i st,
  logged st (snd (addRules e i rules st)).
Proof.
  induction rules as [|v rest IH]; intros i st; simpl; [apply logged_refl|].
  destruct (String.eqb v ""); [apply IH|].
  unfold bind. pose proof (call_logged e "auditctl" (Strings.Fields v) st) as Hc.
  destruct (call e "auditctl" (Strings.Fields v) st) as [[err|] st1]; simpl in *;
    [exact Hc|].
  match goal with |- context [logger.Info ?fm ?a st1] =>
    pose proof (log_at_logged SevInfo stdOut fm a st1) as Hi;
    fold (@logger.Info W) in Hi; destruct (logger.Info fm a st1) as [[] st2] end.
  simpl in Hi. eapply logged_trans; [exact Hc|].
  eapply logged_trans; [exact Hi | apply IH].
Qed.

Lemma rules_logged (e : executor W) rules (st : State W) :
  logged st
    (snd ((if negb (Nat.eqb (length rules) 0) then addRules e 0 rules
           else ret (Some "No audit rules found.")) st)).
Proof.
  destruct (negb _); [apply addRules_logged | apply logged_refl].
Qed.

Lemma setRules_logs (config : Viper) (e : executor W) (st : State W) :
  logged st (snd (setRules config e st)).
Proof.
  unfold setRules, bind.
  pose proof (call_logged e "auditctl" ["-D"] st) as Hc.
  destruct (call e "auditctl" ["-D"] st) as [[err|] st1]; simpl in *; [exact Hc|].
  match goal with |- context [logger.Info ?fm ?a st1] =>
    pose proof (log_at_logged SevInfo stdOut fm a st1) as Hi;
    fold (@logger.Info W) in Hi; destruct (logger.Info fm a st1) as [[] st2] end.
  simpl in Hi. eapply logged_trans; [exact Hc|].
  eapply logged_trans; [exact Hi | apply rules_logged].
Qed.

(** X9: [setRules] never changes a logger or a variable of [logger], and
    whatever it emits it emits through them: it prints where [l] or [el]
    writes, or sends to the syslog writer. *)
Theorem setRules_logged (config : Viper) (e : executor W) (st : State W) :
  logged st (snd (setRules config e st)).
Proof.
  unfold setRules, bind.
  pose proof (call_logged e "auditctl" ["-D"] st) as Hc.
  destruct (call e "auditctl" ["-D"] st) as [[err|] st1]; simpl in *; [exact Hc|].
  match goal with |- context [logger.Info ?fm ?a st1] =>
    pose proof (log_at_logged SevInfo stdOut fm a st1) as Hi;
    fold (@logger.Info W) in Hi; destruct (logger.Info fm a st1) as [[] st2] end.
  simpl in Hi. eapply logged_trans; [exact Hc|].
  destruct (negb _); simpl.
  - eapply logged_trans; [exact Hi | apply addRules_logged].
  - exact Hi.
Qed.

Lemma setRules_success (config : Viper) (e : executor W) (st : State W) :
  fst (setRules config e st) = None ->
  viper.GetStringSlice config "rules" <> [] /\
  exists done,
    invoked (snd (setRules config e st)) = (invoked st ++ done)%list /\
    Forall succeeded done /\ map command done = planned config.
Proof.
  unfold setRules, planned, bind, call.
  destruct (e "auditctl" ["-D"] (world st)) as [[err|] w']; [discriminate|].
  match goal with |- context [logger.Info ?f ?a ?s] =>
    pose proof (log_at_invoked SevInfo stdOut f a s) as Hinv;
    fold (@logger.Info W) in Hinv;
    destruct (logger.Info f a s) as [[] st1] end.
  simpl in Hinv.
  destruct (viper.GetStringSlice config "rules") as [|v rules]; [discriminate|].
  cbn [length Nat.eqb negb]. intros Hres. split; [discriminate|].
  destruct (addRules_invocations e (v :: rules) 0 st1) as (done & Hd & Hcase).
  destruct Hcase as [[_ [Hall Hmap]] | [[msg Hmsg] _]]; [|congruence].
  eexists (_ :: done). split; [|split].
  - rewrite Hd, Hinv, <- app_assoc. reflexivity.
  - constructor; [reflexivity | exact Hall].
  - simpl. rewrite Hmap. reflexivity.
Qed.

End RulesFrame.

Section MainProperties.
Context {W : Type} (os : OS W) (eng : Engine W).

Lemma log_at_emitted_stdErr sev format a (st : State W) :
  stdErr st = Some ref_el -> sysLog st = None ->
  snd (logger.log_at sev stdErr format a st)
    = emit (Printed (out (el st)) format a) st.
Proof.
  intros He Hs. unfold logger.log_at, logger.Printf. rewrite Hs, He. reflexivity.
Qed.



End MainProperties.

Section StdoutClean.
Context {W : Type} (os : OS W) (eng : Engine W).

Lemma with_world_logged (w : W) (st : State W) : logged st (with_world w st).
Proof.
  split; [reflexivity|]. exists []. rewrite app_nil_r. split; [reflexivity|constructor].
Qed.

Lemma logged_clean (st st' : State W) :
  logged st st' -> out (l st) = Stderr -> out (el st) = Stderr ->
  exists new, emitted st' = (emitted st ++ new)%list /\ Forall not_on_stdout new.
Proof.
  intros (_ & new & He & Hall) Hl Hel. exists new. split; [exact He|].
  eapply Forall_impl; [exact Hall|]. intros e. destruct e as [to f a| |]; simpl; auto.
  rewrite Hl, Hel. intros [-> | ->]; exact I.
Qed.

Lemma createOutput_redirected config (st st2 : State W) writer :
  viper.GetBool config "output.stdout.enabled" = true ->
  createOutput os config st = ((writer, None), st2) ->
  out (l st2) = Stderr.
Proof.
  intros Hen. unfold createOutput, output_block, bind, ret. rewrite Hen.
  destruct (viper.GetBool config "output.syslog.enabled");
  destruct (viper.GetBool config "output.file.enabled").
  all: repeat match goal with
    | |- context [createSyslogOutput ?o ?c ?s] =>
        let H := fresh in
        pose proof (createSyslogOutput_shape o c s) as H;
        destruct H as [[? H] | [? H]];
        destruct (createSyslogOutput o c s) as [? ?]; simpl in H; subst; simpl
    | |- context [createFileOutput ?o ?c ?s] =>
        let H := fresh in
        pose proof (createFileOutput_shape o c s) as H;
        destruct H as [[? H] | [? H]];
        destruct (createFileOutput o c s) as [? ?]; simpl in H; subst; simpl
    end.
  all: unfold createStdOutOutput, SetOutput, NewAuditWriter, bind, ret, modify.
  all: destruct (viper.GetInt config "output.stdout.attempts" <? 1); simpl.
  all: intros Heq; try discriminate Heq.
  all: inversion Heq; reflexivity.
Qed.

(** X17: when [el] writes to standard error and the loaded configuration
    enables the stdout output, nothing that the start-up of [main] emits is
    printed to standard output, however the start-up ends. *)
Theorem main_keeps_stdout_clean (configFile : string) (st : State W) :
  out (el st) = Stderr ->
  (forall config st1,
     loadConfig os configFile (after_AuditLoggerNew st) = (Ok config, st1) ->
     viper.GetBool config "output.stdout.enabled" = true) ->
  exists new,
    emitted (snd (main os eng configFile st)) = (emitted st ++ new)%list /\
    Forall not_on_stdout new.
Proof.
  intros Hel Hstdout.
  assert (Hcrit : forall st' err,
            silent (after_AuditLoggerNew st) st' ->
            exists new,
              emitted (snd (logger.Crit "%v" [err] st')) = (emitted st ++ new)%list /\
              Forall not_on_stdout new).
  { intros st' err (_ & He & Ho & _ & Hse & Hsl). simpl in *.
    unfold logger.Crit. rewrite log_at_emitted_stdErr by assumption.
    simpl. rewrite He, Ho, Hel. eexists [_]. split; [reflexivity|].
    repeat constructor. }
  pattern (main os eng configFile st). apply main_cases; cbv zeta.
  - intros _. cbn [snd]. unfold logger.Err.
    rewrite log_at_emitted_stdErr by reflexivity. simpl. rewrite Hel.
    rewrite <- app_assoc. eexists. split; [reflexivity|]. repeat constructor.
  - intros err st1 _ Hload. cbn [snd]. apply Hcrit.
    pose proof (loadConfig_silent os configFile (after_AuditLoggerNew st)) as Hs.
    rewrite Hload in Hs. exact Hs.
  - intros config st1 writer err st2 _ Hload Hout. cbn [snd]. apply Hcrit.
    pose proof (loadConfig_silent os configFile (after_AuditLoggerNew st)) as Hs.
    rewrite Hload in Hs.
    pose proof (createOutput_silent os config st1) as Hs2. rewrite Hout in Hs2.
    eapply silent_trans; eassumption.
  - intros config st1 writer st2 err st3 _ Hload Hout Hrules. cbn [snd].
    pose proof (loadConfig_silent os configFile (after_AuditLoggerNew st)) as Hs.
    rewrite Hload in Hs.
    pose proof (createOutput_silent os config st1) as Hs2. rewrite Hout in Hs2.
    pose proof (silent_trans _ _ _ Hs Hs2) as (_ & He & Ho & _). simpl in He, Ho.
    pose proof (setRules_logs config (lExec os) st2) as Hr. rewrite Hrules in Hr.
    simpl in Hr.
    pose proof (log_at_logged SevCrit stdErr "%v" [err] st3) as Hc.
    fold (@logger.Crit W) in Hc.
    rewrite <- He.
    apply (logged_clean st2); [eapply logged_trans; eassumption | | congruence].
    eapply createOutput_redirected; [|exact Hout]. eapply Hstdout. exact Hload.
  - intros config st1 writer st2 st3 nl w4 _ Hload Hout Hrules Hnl.
    pose proof (loadConfig_silent os configFile (after_AuditLoggerNew st)) as Hs.
    rewrite Hload in Hs.
    pose proof (createOutput_silent os config st1) as Hs2. rewrite Hout in Hs2.
    pose proof (silent_trans _ _ _ Hs Hs2) as (_ & He & Ho & _). simpl in He, Ho.
    pose proof (setRules_logs config (lExec os) st2) as Hr. rewrite Hrules in Hr.
    simpl in Hr.
    assert (Hl2 : out (l st2) = Stderr).
    { eapply createOutput_redirected; [|exact Hout]. eapply Hstdout. exact Hload. }
    assert (Hel2 : out (el st2) = Stderr) by congruence.
    pose proof (logged_trans _ _ _ Hr (with_world_logged w4 st3)) as H4.
    rewrite <- He.
    destruct nl as [nlClient|]; [|apply (logged_clean st2); assumption].
    intros fs st5 Hfs.
    pose proof (createFilters_kept os config (with_world w4 st3)) as Hk.
    rewrite Hfs in Hk. destruct Hk as (_ & _ & Hk). simpl in Hk.
    pose proof (logged_trans _ _ _ H4 Hk) as H5.
    destruct fs as [filters|v]; [|apply (logged_clean st2); assumption].
    intros m w6 Hm.
    pose proof (logged_trans _ _ _ H5 (with_world_logged w6 st5)) as H6.
    destruct m as [marshaller|]; [|apply (logged_clean st2); assumption].
    pose proof (log_at_logged SevInfo stdOut "Started processing events" []
                  (with_world w6 st5)) as Hi.
    fold (@logger.Info W) in Hi.
    apply (logged_clean st2); [eapply logged_trans; eassumption | assumption..].
Qed.

End StdoutClean.

Section LoopMore.
Context {W : Type} (eng : Engine W).

Local Abbreviation J := (Journal (NetlinkMessage eng)).

Lemma iteration_journaled c m (st : State (W * J)) :
  let r := iteration (journaled eng) c m st in
  let p := fst (Receive eng c (fst (world st))) in
  iteration eng c m (erase st) = (fst r, erase (snd r)) /\
  received (snd (world (snd r))) = (received (snd (world st)) ++ [p])%list /\
  consumed (snd (world (snd r)))
    = (consumed (snd (world st)) ++ from_option (fun x => [x]) [] (delivered p))%list /\
  (stdErr st = Some ref_el -> sysLog st = None ->
   emitted (snd r)
     = (emitted st ++
        from_option (fun err => [Printed (out (el st))
                                   "Error during message receive: %+v" [err]])
                    [] (failure p))%list) /\
  loggers (snd r) = loggers st /\
  (fst r = false -> delivered p <> None).
Proof.
  unfold iteration, bind, sys, ret. simpl.
  destruct (Receive eng c (fst (world st))) as [[msg err] w'] eqn:Hr. simpl.
  destruct err as [err|].
  - unfold logger.Err, logger.log_at, logger.Printf. simpl.
    destruct (sysLog st) as [sw|] eqn:Hs; simpl.
    + repeat split; try (rewrite app_nil_r; reflexivity); try discriminate.
      destruct msg; rewrite app_nil_r; reflexivity.
    + destruct (stdErr st) as [r|] eqn:He; simpl.
      * repeat split; try discriminate.
        -- destruct msg; rewrite app_nil_r; reflexivity.
        -- intros Heq _. inversion Heq. reflexivity.
      * repeat split; try discriminate.
        destruct msg; rewrite app_nil_r; reflexivity.
  - destruct msg as [msg|]; simpl.
    + destruct (Consume eng m msg w') as [alive w''] eqn:Hc. simpl.
      repeat split; try (rewrite app_nil_r; reflexivity). discriminate.
    + repeat split; try (rewrite app_nil_r; reflexivity). discriminate.
Qed.

End LoopMore.

Section LoopJournal.
Context {W : Type} (eng : Engine W).

Local Abbreviation J := (Journal (NetlinkMessage eng)).

Lemma omap_singleton {A B} (f : A -> option B) (x : A) :
  omap f [x] = from_option (fun y => [y]) [] (f x).
Proof. simpl. destruct (f x); reflexivity. Qed.

(** X18: over the first turns of the main loop, the messages handed to
    [Consume] are exactly the messages that [Receive] returned without an
    error, in order; with [logger] set up as [main] does, one line is
    logged to where [el] writes for each error [Receive] returned, in
    order; and keeping the journal does not change the run. *)
Theorem loop_journal n c m : forall (st : State (W * J)),
  let r := loop (journaled eng) n c m st in
  loop eng n c m (erase st) = (fst r, erase (snd r)) /\
  exists ps,
    received (snd (world (snd r))) = (received (snd (world st)) ++ ps)%list /\
    (length ps <= n)%nat /\ (fst r = true -> length ps = n) /\
    consumed (snd (world (snd r)))
      = (consumed (snd (world st)) ++ omap delivered ps)%list /\
    (stdErr st = Some ref_el -> sysLog st = None ->
     emitted (snd r)
       = (emitted st ++ map (receive_error_line (out (el st))) (omap failure ps))%list).
Proof.
  induction n as [|n IH]; intros st; cbv zeta.
  - simpl. split; [reflexivity|]. exists []. simpl.
    repeat split; try (rewrite app_nil_r; reflexivity). lia.
  - cbn [loop]. unfold bind.
    pose proof (iteration_journaled eng c m st) as (Hsim & Hrec & Hcon & Hem & Hlog & Hend).
    rewrite Hsim.
    destruct (iteration (journaled eng) c m st) as [alive st1]. cbn [fst snd] in *.
    set (p := fst (Receive eng c (fst (world st)))) in *.
    destruct alive.
    + specialize (IH st1). cbv zeta in IH.
      destruct IH as (IHsim & ps & Hr & Hle & Hfull & Hc & He).
      split; [exact IHsim|]. exists (p :: ps).
      assert (Ho : omap delivered (p :: ps)
                   = (from_option (fun x => [x]) [] (delivered p)
                      ++ omap delivered ps)%list).
      { change (p :: ps) with ([p] ++ ps)%list. rewrite omap_app, omap_singleton.
        reflexivity. }
      assert (Hf : map (receive_error_line (out (el st))) (omap failure (p :: ps))
                   = (from_option (fun err => [receive_error_line (out (el st)) err])
                                  [] (failure p)
                      ++ map (receive_error_line (out (el st))) (omap failure ps))%list).
      { change (p :: ps) with ([p] ++ ps)%list.
        rewrite omap_app, map_app, omap_singleton.
        destruct (failure p); reflexivity. }
      repeat split.
      * refine (eq_trans Hr _).
        refine (eq_trans (f_equal (fun x => (x ++ ps)%list) Hrec) _).
        symmetry. apply (app_assoc _ [p] ps).
      * simpl. lia.
      * intros Ht. simpl. rewrite (Hfull Ht). reflexivity.
      * refine (eq_trans Hc _).
        refine (eq_trans (f_equal (fun x => (x ++ omap delivered ps)%list) Hcon) _).
        rewrite Ho. symmetry. apply app_assoc.
      * intros Hse Hsl. unfold loggers in Hlog.
        inversion Hlog as [[Hl Hel Hso Hse' Hsl']].
        refine (eq_trans (He ltac:(congruence) ltac:(congruence)) _).
        rewrite Hel.
        refine (eq_trans (f_equal (fun x => (x ++ _)%list) (Hem Hse Hsl)) _).
        rewrite Hf. symmetry. apply app_assoc.
    + split; [reflexivity|]. exists [p]. repeat split.
      * exact Hrec.
      * simpl. lia.
      * discriminate.
      * refine (eq_trans Hcon _). rewrite omap_singleton. reflexivity.
      * intros Hse Hsl. refine (eq_trans (Hem Hse Hsl) _). rewrite omap_singleton.
        unfold receive_error_line. destruct (failure p); reflexivity.
Qed.

End LoopJournal.

Section LoggerRouting.
Context {W : Type}.

(** X20: after [AuditLoggerNew], each of the eight functions of [logger]
    sends to the syslog writer with its own severity when one was given;
    otherwise [Emerg], [Alert], [Crit], [Err] and [Warning] print through
    the error logger and [Notice], [Info] and [Debug] through the output
    logger, to where that logger writes at the time of the call, and do
    nothing when that logger is nil. *)
Theorem logger_routing so se sl sev format a (st : State W) :
  let st1 := snd (logger.AuditLoggerNew so se sl st) in
  forall st2 : State W,
    stdOut st2 = stdOut st1 -> stdErr st2 = stdErr st1 -> sysLog st2 = sysLog st1 ->
    snd (logger_function sev format a st2) =
      match sl with
      | Some w => emit (Syslogged w sev format a) st2
      | None =>
          match (if to_error_logger sev then se else so) with
          | Some r => emit (Printed (out (deref r st2)) format a) st2
          | None => st2
          end
      end.
Proof.
  cbv zeta. simpl. intros st2 Hso Hse Hsl.
  destruct sev; simpl;
    unfold logger.Emerg, logger.Alert, logger.Crit, logger.Err, logger.Warning,
           logger.Notice, logger.Info, logger.Debug, logger.log_at, logger.Printf;
    rewrite Hsl; destruct sl; try reflexivity;
    rewrite ?Hse, ?Hso; try (destruct se; reflexivity); destruct so; reflexivity.
Qed.

End LoggerRouting.

Section EmptyRules.
Context {W : Type}.

Lemma addRules_all_empty (e : executor W) rules : forall i st,
  Forall (fun v => v = "") rules -> addRules e i rules st = (None, st).
Proof.
  induction rules as [|v rest IH]; intros i st Hall; [reflexivity|].
  inversion Hall as [|? ? Hv Hrest]; subst. simpl. apply IH. exact Hrest.
Qed.

(** X8: a rule list that holds only empty strings is not an empty list:
    [setRules] runs the flush and nothing else, and returns nil when the
    flush succeeded. *)
Theorem setRules_only_empty_rules (config : Viper) (e : executor W) (st : State W) :
  viper.GetStringSlice config "rules" <> [] ->
  Forall (fun v => v = "") (viper.GetStringSlice config "rules") ->
  let flush := e "auditctl" ["-D"] (world st) in
  let st' := snd (setRules config e st) in
  invoked st' = (invoked st ++
    [{| inv_name := "auditctl"; inv_args := ["-D"]; inv_err := fst flush |}])%list /\
  world st' = snd flush /\
  fst (setRules config e st) =
    match fst flush with
    | None => None
    | Some err => Some ("Failed to flush existing audit rules. Error: " +:+ err)
    end.
Proof.
  intros Hne Hall. unfold setRules, bind, call. cbv zeta.
  destruct (e "auditctl" ["-D"] (world st)) as [[err|] w']; simpl.
  - repeat split.
  - unfold logger.Info.
    match goal with |- context [logger.log_at ?s ?f ?fm ?a ?x] =>
      pose proof (log_at_frame s f fm a x) as (Hw & _ & Hi);
      destruct (logger.log_at s f fm a x) as [[] st1] end.
    simpl in Hw, Hi.
    destruct (viper.GetStringSlice config "rules") as [|v rules]; [contradiction|].
    cbn [length Nat.eqb negb]. rewrite (addRules_all_empty e _ 0 st1 Hall). simpl.
    rewrite Hw, Hi. repeat split.
Qed.

End EmptyRules.

Lemma loadConfig_flags_witness :
  l (snd (loadConfig (Sample.os (list_to_map [("log.flags", VInt 3)]))
            "/etc/go-audit.yaml" (initial [])))
    = {| out := Stdout; flags := 3 |} /\
  loadConfig (Sample.os ∅) "/etc/nope.yaml" (initial [])
    = (Error "open /etc/nope.yaml: no such file or directory",
       with_world ["read /etc/nope.yaml"] (initial [])).
Proof.
  split.
  - destruct (loadConfig_flags (Sample.os (list_to_map [("log.flags", VInt 3)]))
                "/etc/go-audit.yaml" (initial [])) as (_ & H).
    destruct (H (list_to_map [("log.flags", VInt 3)]) ["read /etc/go-audit.yaml"]
                ltac:(reflexivity)) as (_ & Hl & _).
    exact Hl.
  - destruct (loadConfig_flags (Sample.os ∅) "/etc/nope.yaml" (initial [])) as (H & _).
    exact (H _ _ ltac:(reflexivity)).
Defined.


Lemma createOutput_first_error_witness :
  fst (createOutput (Sample.os ∅)
         (Sample.config [("output.stdout.enabled", VBool true);
                         ("output.stdout.attempts", VInt 2);
                         ("output.syslog.enabled", VBool true)])
         (initial []))
    = (None, Some "Only one output can be enabled at a time") /\
  world (snd (createOutput (Sample.os ∅)
         (Sample.config [("output.stdout.enabled", VBool true);
                         ("output.stdout.attempts", VInt 2);
                         ("output.syslog.enabled", VBool true)])
         (initial []))) = ["dial go-audit"].
Proof.
  pose proof (createOutput_first_error (Sample.os ∅)
         (Sample.config [("output.stdout.enabled", VBool true);
                         ("output.stdout.attempts", VInt 2);
                         ("output.syslog.enabled", VBool true)])
         (initial [])) as (Hst & Hres).
  split.
  - exact ((Hres : (1 < 2)%nat -> _ = (None, Some "Only one output can be enabled at a time"))
             ltac:(lia)).
  - exact (f_equal world Hst).
Defined.

Lemma createOutput_writer_witness :
  1 <= 2 /\
  writer_matches (Sample.config [("output.stdout.enabled", VBool true);
                                 ("output.stdout.attempts", VInt 2)])
                 {| sink := StdoutSink; attempts := 2 |}.
Proof.
  apply (createOutput_writer (Sample.os ∅)
           (Sample.config [("output.stdout.enabled", VBool true);
                           ("output.stdout.attempts", VInt 2)])
           (initial []) {| sink := StdoutSink; attempts := 2 |}).
  vm_compute. reflexivity.
Defined.

Lemma createFileOutput_mode_zero_witness :
  createFileOutput (Sample.os ∅)
    (Sample.config [("output.file.attempts", VInt 1);
                    ("output.file.mode", VInt 4294967296)]) (initial [])
  = ((None, Some "Output file mode should be greater than 0000"), initial []).
Proof.
  apply (createFileOutput_mode_zero (Sample.os ∅)
    (Sample.config [("output.file.attempts", VInt 1);
                    ("output.file.mode", VInt 4294967296)]) (initial [])).
  - vm_compute. discriminate.
  - vm_compute. reflexivity.
Defined.

Lemma setRules_error_witness :
  exists (k : nat) v err,
    viper.GetStringSlice
      (Sample.config [("rules", VList [VStr "-w /tmp"; VStr ""; VStr "-w /etc -X"])])
      "rules" !! k = Some v /\
    "Failed to add rule #3. Error: exit status 1" = rule_error (Z.of_nat k + 1) err.
Proof.
  assert (Hres : fst (setRules
              (Sample.config [("rules", VList [VStr "-w /tmp"; VStr ""; VStr "-w /etc -X"])])
              Sample.run (initial []))
            = Some "Failed to add rule #3. Error: exit status 1").
  { vm_compute. reflexivity. }
  destruct (setRules_error _ _ _ _ Hres)
    as [(err & Hmsg & _) | [(Hmsg & _) | (k & v & err & Hk & _ & Hmsg & _)]].
  - discriminate Hmsg.
  - discriminate Hmsg.
  - exists k, v, err. split; [exact Hk | exact Hmsg].
Defined.

Lemma createFilters_ignores_unknown_keys_witness :
  createFilters (Sample.os ∅)
    (Sample.config [("filters",
       VList [VMap [(VStr "message_type", VInt 1300); (VStr "comment", VStr "execve");
                    (VStr "syscall", VInt 59); (VStr "regex", VStr "x")]])])
    (initial [])
  = createFilters (Sample.os ∅)
      (Sample.config [("filters",
         VList [VMap [(VStr "message_type", VInt 1300);
                      (VStr "syscall", VInt 59); (VStr "regex", VStr "x")]])])
      (initial []).
Proof.
  apply (createFilters_ignores_unknown_keys (Sample.os ∅) _ _ [] []
           [(VStr "message_type", VInt 1300)]
           [(VStr "syscall", VInt 59); (VStr "regex", VStr "x")]
           (VStr "comment") (VStr "execve")).
  - vm_compute. reflexivity.
  - vm_compute. reflexivity.
  - repeat split.
Defined.

Lemma createFilters_order_independent_witness :
  createFilters (Sample.os ∅)
    (Sample.config [("filters",
       VList [VMap [(VStr "message_type", VInt 1300); (VStr "syscall", VInt 59);
                    (VStr "regex", VStr "x")]])])
    (initial [])
  = createFilters (Sample.os ∅)
      (Sample.config [("filters",
         VList [VMap [(VStr "syscall", VInt 59); (VStr "message_type", VInt 1300);
                      (VStr "regex", VStr "x")]])])
      (initial []).
Proof.
  apply (createFilters_order_independent (Sample.os ∅) _ _ [] []
           [(VStr "message_type", VInt 1300); (VStr "syscall", VInt 59);
            (VStr "regex", VStr "x")]
           [(VStr "syscall", VInt 59); (VStr "message_type", VInt 1300);
            (VStr "regex", VStr "x")]).
  - vm_compute. reflexivity.
  - vm_compute. reflexivity.
  - repeat constructor; intros H;
      repeat (apply elem_of_cons in H as [H|H]; [discriminate H|]); inversion H.
  - apply perm_swap.
  - repeat constructor.
Defined.

Lemma createFilters_returned_witness :
  length [{| MessageType := 1300; Syscall := "59"; Regex := Some {| expr := "x" |} |}]
    = length [Sample.filter_of (VInt 1300) (VInt 59) (VStr "x")] /\
  Forall (fun af => Regex af <> None)
    [{| MessageType := 1300; Syscall := "59"; Regex := Some {| expr := "x" |} |}].
Proof.
  assert (Hget : viper.Get (Sample.config stdout_file) "filters"
                 = VList [Sample.filter_of (VInt 1300) (VInt 59) (VStr "x")]).
  { vm_compute. reflexivity. }
  assert (Hret : fst (createFilters (Sample.os ∅) (Sample.config stdout_file) (initial []))
                 = Returned [{| MessageType := 1300; Syscall := "59";
                                Regex := Some {| expr := "x" |} |}]).
  { vm_compute. reflexivity. }
  destruct (createFilters_returned _ _ _ _ _ Hget Hret) as (Hlen & Hre & _).
  split; [exact Hlen | exact Hre].
Defined.

Lemma createFilters_empty_witness :
  createFilters (Sample.os ∅) (Sample.config [("filters", VStr "syscall=59")])
    (initial [])
  = (Returned [], initial []).
Proof.
  apply (createFilters_empty (Sample.os ∅)
           (Sample.config [("filters", VStr "syscall=59")]) (initial [])).
  intros f ft. vm_compute. discriminate.
Defined.

Lemma setRules_only_empty_rules_witness :
  fst (setRules (Sample.config [("rules", VList [VStr ""; VStr ""])])
         Sample.run (initial [])) = None /\
  world (snd (setRules (Sample.config [("rules", VList [VStr ""; VStr ""])])
                Sample.run (initial []))) = ["auditctl -D"].
Proof.
  destruct (setRules_only_empty_rules
              (Sample.config [("rules", VList [VStr ""; VStr ""])])
              Sample.run (initial []))
    as (_ & Hw & Hr).
  - vm_compute. discriminate.
  - vm_compute. repeat constructor.
  - split; [exact Hr | exact Hw].
Defined.



Lemma main_keeps_stdout_clean_witness :
  exists new,
    emitted (snd (main (Sample.os (list_to_map stdout_file)) (Sample.engine [])
                    "/etc/go-audit.yaml" (initial [])))
      = ([] ++ new)%list /\
    Forall not_on_stdout new.
Proof.
  apply (main_keeps_stdout_clean (Sample.os (list_to_map stdout_file))
           (Sample.engine []) "/etc/go-audit.yaml" (initial [])).
  - reflexivity.
  - intros config st1 H. vm_compute in H. inversion H. vm_compute. reflexivity.
Defined.

Lemma loop_journal_witness :
  exists ps,
    consumed (snd (world (snd (loop
       (journaled (Sample.engine [(None, Some "interrupted system call");
                                  (Some "type=1300", None); (None, None)]))
       3 tt tt (initial ([], {| received := []; consumed := [] |}))))))
      = ([] ++ omap delivered ps)%list /\
    length ps = 3%nat.
Proof.
  destruct (loop_journal
              (Sample.engine [(None, Some "interrupted system call");
                              (Some "type=1300", None); (None, None)])
              3 tt tt (initial ([], {| received := []; consumed := [] |})))
    as (_ & ps & _ & _ & Hfull & Hc & _).
  exists ps. split; [exact Hc|]. apply Hfull. vm_compute. reflexivity.
Defined.

Lemma logger_routing_witness :
  snd (logger.Info "Started processing events" []
         (snd (SetOutput ref_l Stderr
                 (snd (logger.AuditLoggerNew (Some ref_l) (Some ref_el) None
                         (initial ([] : Sample.World)))))))
  = emit (Printed Stderr "Started processing events" [])
      (snd (SetOutput ref_l Stderr
              (snd (logger.AuditLoggerNew (Some ref_l) (Some ref_el) None
                      (initial ([] : Sample.World)))))).
Proof.
  exact (logger_routing (Some ref_l) (Some ref_el) None SevInfo
           "Started processing events" [] (initial ([] : Sample.World))
           (snd (SetOutput ref_l Stderr
                   (snd (logger.AuditLoggerNew (Some ref_l) (Some ref_el) None
                           (initial ([] : Sample.World))))))
           eq_refl eq_refl eq_refl).
Defined.
